(** * Rozetka sales agent: call hand-off orchestration

    A shallow embedding of [src/agent.py] and [src/services/firebase_service.py]
    and the properties of the call hand-off logic stated over it.

    - Python dictionaries with string keys are [gmap string pyval]; JSON request
      bodies, whose key order is the order of the source, are association lists.
    - Mutable state (the agent object, the audio switches of the session, the
      module-level Firestore handle) is threaded through a state-and-exception
      monad; [try ... except] is the combinator [try_except].
    - Whatever the outside world decides (whether a request raises, which
      document id Firestore draws, which room callbacks arrive while a handler
      is suspended) is an explicit argument of the handler. *)

From Stdlib Require Import ZArith String Ascii List Bool Lia.
From stdpp Require Import gmap strings list pretty.

Open Scope string_scope.

Set Warnings "-register-all".

(** ** Python values and exceptions *)

Inductive pyval : Type :=
| PyNone
| PyBool (b : bool)
| PyInt (n : Z)
| PyStr (s : string)
| PyList (items : list pyval)
| PyDict (fields : list (string * pyval)).

(** The exceptions the handlers can meet.  The first three are subclasses of
    [httpx.HTTPError]; [PyException] is any other subclass of [Exception]. *)
Inductive exn : Type :=
| HTTPStatusError (msg : string)
| TimeoutException (msg : string)
| TransportError (msg : string)
| PyException (msg : string).

(** [isinstance(e, httpx.HTTPError)] *)
Definition isinstance_HTTPError (e : exn) : bool :=
  match e with
  | HTTPStatusError _ | TimeoutException _ | TransportError _ => true
  | PyException _ => false
  end.

(** [str(e)], as interpolated by [f"...{e}"] *)
Definition str_exn (e : exn) : string :=
  match e with
  | HTTPStatusError m | TimeoutException m | TransportError m | PyException m => m
  end.

(** [str(x)] *)
Definition bool_str (b : bool) : string := if b then "True" else "False".

(** Truthiness of a [str]. *)
Definition str_truthy (s : string) : bool := negb (String.eqb s "").

(** [d.get(k, dflt)] and [d.get(k)] *)
Definition dict_get (d : gmap string pyval) (k : string) (dflt : pyval) : pyval :=
  default dflt (d !! k).

Definition dict_get_none (d : gmap string pyval) (k : string) : pyval :=
  dict_get d k PyNone.

(** ** State and exceptions *)

Inductive result (A : Type) : Type :=
| Ok (a : A)
| Raise (e : exn).

Arguments Ok {A} a.
Arguments Raise {A} e.

(** A computation over the state [St] that returns or raises. *)
Definition M (St A : Type) : Type := St -> result A * St.

Definition ret {St A} (a : A) : M St A := fun s => (Ok a, s).

Definition bind {St A B} (m : M St A) (f : A -> M St B) : M St B :=
  fun s =>
    match m s with
    | (Ok a, s') => f a s'
    | (Raise e, s') => (Raise e, s')
    end.

Definition raise {St A} (e : exn) : M St A := fun s => (Raise e, s).

(** [try: body / except Exception as e: handler e] *)
Definition try_except {St A} (body : M St A) (handler : exn -> M St A) : M St A :=
  fun s =>
    match body s with
    | (Ok a, s') => (Ok a, s')
    | (Raise e, s') => handler e s'
    end.

Definition get {St} : M St St := fun s => (Ok s, s).
Definition modify {St} (f : St -> St) : M St unit := fun s => (Ok tt, f s).

(** The outcome of a call into the outside world: it returns or it raises. *)
Definition outcome {St} (o : option exn) : M St unit :=
  match o with
  | None => ret tt
  | Some e => raise e
  end.

Declare Scope py_scope.
Delimit Scope py_scope with py.
Notation "'do' x <- m ; k" := (bind m (fun x => k))
  (at level 10, x name, m at level 100, k at level 200,
   format "'[v' 'do'  x  <-  m ; '/' k ']'") : py_scope.
Open Scope py_scope.

Inductive level : Type := INFO | WARNING | ERROR.

(** ** [services/firebase_service.py] *)

Module firebase_service.

(** A document snapshot of Firestore: [doc.id] and [doc.to_dict()]. *)
Record DocumentSnapshot : Type := {
  doc_id : string;
  to_dict : gmap string pyval;
}.

(** The Firestore client held in the module-level [_db]: the two collections
    the service uses. *)
Record Firestore : Type := {
  orders : list DocumentSnapshot;
  calls : gmap string (gmap string pyval);
}.

(** A log record: the text, and for [f"...{call_data}"] the dictionary that is
    interpolated. *)
Inductive log_record : Type :=
| LogText (lvl : level) (msg : string)
| LogDict (lvl : level) (msg : string) (d : gmap string pyval).

(** Module state: the global [_db] and what has been logged. *)
Record state : Type := {
  _db : option Firestore;
  log : list log_record;
}.

Definition set_db (db : option Firestore) (s : state) : state :=
  {| _db := db; log := log s |}.

Definition logger (r : log_record) : M state unit :=
  modify (fun s => {| _db := _db s; log := log s ++ [r] |}).

(** [FirebaseService]: its only attribute is [_use_firebase]. *)
Record FirebaseService : Type := {
  _use_firebase : bool;
}.

(** [self._use_firebase and _db] *)
Definition configured (self : FirebaseService) (s : state) : bool :=
  _use_firebase self && bool_decide (is_Some (_db s)).

(** [orders_ref.where("phone", "==", phone_number)] *)
Definition where_phone (phone_number : string) (docs : list DocumentSnapshot)
  : list DocumentSnapshot :=
  List.filter
    (fun d => match to_dict d !! "phone" with
              | Some (PyStr p) => String.eqb p phone_number
              | _ => false
              end)
    docs.

(** [query.stream()], iterated: either the backend raises or the matching
    documents, at most [limit], are produced. *)
Definition stream (fails : option exn) (limit : nat) (docs : list DocumentSnapshot)
  : M state (list DocumentSnapshot) :=
  do _ <- outcome fails;
  ret (take limit docs).

(** The record built from a matching order (lines 66-73). *)
Definition order_record (doc : DocumentSnapshot) : gmap string pyval :=
  let data := to_dict doc in
  <["order_id" := PyStr (doc_id doc)]>
  (<["customer_name" := dict_get data "customer_name" (PyStr "Customer")]>
  (<["product_name" := dict_get data "product_name" (PyStr "your order")]>
  (<["product_price" := dict_get data "price" (PyInt 0)]>
  (<["upsell_product" := dict_get data "upsell_product" (PyStr "a premium warranty")]>
  (<["upsell_price" := dict_get data "upsell_price" (PyInt 199)]> ∅))))).

(** The mock record (lines 78-85). *)
Definition mock_order : gmap string pyval :=
  <["order_id" := PyStr "mock-123"]>
  (<["customer_name" := PyStr "Valued Customer"]>
  (<["product_name" := PyStr "Samsung Galaxy S24"]>
  (<["product_price" := PyInt 25999]>
  (<["upsell_product" := PyStr "Premium Protection Plan"]>
  (<["upsell_price" := PyInt 1499]> ∅))))).

(** [get_order_context].  [stream_fails] is what the Firestore query does when
    it is iterated.  The [return] inside the loop is the [Some] result. *)
Definition get_order_context (self : FirebaseService) (phone_number : string)
    (stream_fails : option exn) : M state (gmap string pyval) :=
  do s <- get;
  do found <-
    match _use_firebase self, _db s with
    | true, Some db =>
        try_except
          (do docs <- stream stream_fails 1 (where_phone phone_number (orders db));
           match docs with
           | doc :: _ => ret (Some (order_record doc))
           | [] => ret None
           end)
          (fun e =>
             do _ <- logger (LogText ERROR ("Error fetching order: " +:+ str_exn e));
             ret None)
    | _, _ => ret None
    end;
  match found with
  | Some r => ret r
  | None => ret mock_order
  end.

(** The record written at call start (lines 98-109); [now] is
    [datetime.now(timezone.utc).isoformat()]. *)
Definition call_data (room_name phone_number : string)
    (order_context : gmap string pyval) (now : string) : gmap string pyval :=
  <["room_name" := PyStr room_name]>
  (<["phone" := PyStr phone_number]>
  (<["order_id" := dict_get_none order_context "order_id"]>
  (<["customer_name" := dict_get_none order_context "customer_name"]>
  (<["status" := PyStr "in_progress"]>
  (<["started_at" := PyStr now]>
  (<["transcript" := PyList []]>
  (<["upsell_offered" := PyBool false]>
  (<["upsell_accepted" := PyBool false]>
  (<["handoff_requested" := PyBool false]> ∅))))))))).

(** What the Firestore client does during one [log_call_start]:
    [document()] draws the auto-generated id (or raises), [set] may raise. *)
Record write_env : Type := {
  document_outcome : exn + string;
  set_fails : option exn;
}.

(** [_db.collection("calls").document()] *)
Definition document (env : write_env) : M state string :=
  match document_outcome env with
  | inl e => raise e
  | inr auto_id => ret auto_id
  end.

(** [doc_ref.set(data)]: creates the document, or overwrites it. *)
Definition doc_set (env : write_env) (id : string) (data : gmap string pyval)
  : M state unit :=
  do _ <- outcome (set_fails env);
  modify (fun s =>
    match _db s with
    | Some db =>
        set_db (Some {| orders := orders db; calls := <[id := data]> (calls db) |}) s
    | None => s
    end).

(** [log_call_start] *)
Definition log_call_start (self : FirebaseService)
    (room_name phone_number : string) (order_context : gmap string pyval)
    (now : string) (env : write_env) : M state string :=
  let data := call_data room_name phone_number order_context now in
  do s <- get;
  do written <-
    (if configured self s then
       try_except
         (do id <- document env;
          do _ <- doc_set env id data;
          ret (Some id))
         (fun e =>
            do _ <- logger (LogText ERROR ("Error logging call start: " +:+ str_exn e));
            ret None)
     else ret None);
  match written with
  | Some id => ret id
  | None =>
      do _ <- logger (LogDict INFO "[MOCK] Call started: " data);
      ret ("mock-call-" +:+ room_name)
  end.

(** *** The rest of the service *)

(** [update({...})] of a document reference: Firestore refuses to update a
    document that does not exist; otherwise the given fields replace or
    extend the stored ones. *)
Definition doc_update (fails : option exn) (id : string) (data : gmap string pyval)
  : M state unit :=
  do _ <- outcome fails;
  do s <- get;
  match _db s with
  | Some db =>
      match calls db !! id with
      | Some old =>
          modify (set_db (Some {| orders := orders db;
                                  calls := <[id := data ∪ old]> (calls db) |}))
      | None => raise (PyException ("404 No document to update: " +:+ id))
      end
  | None => ret tt
  end.

(** [{"status": status, **extra_fields}] *)
Definition update_data (status : string) (extra_fields : gmap string pyval)
  : gmap string pyval :=
  extra_fields ∪ {["status" := PyStr status]}.

(** [update_call_status] (lines 122-138) *)
Definition update_call_status (self : FirebaseService) (call_id status : string)
    (extra_fields : gmap string pyval) (update_fails : option exn) : M state unit :=
  let data := update_data status extra_fields in
  do s <- get;
  do updated <-
    (if configured self s then
       try_except
         (do _ <- doc_update update_fails call_id data;
          ret true)
         (fun e =>
            do _ <- logger (LogText ERROR ("Error updating call status: " +:+ str_exn e));
            ret false)
     else ret false);
  if updated : bool then ret tt
  else logger (LogDict INFO ("[MOCK] Call " +:+ call_id +:+ " updated: ") data).

(** [request_handoff] (lines 140-148); [now] is the timestamp. *)
Definition request_handoff (self : FirebaseService) (call_id reason now : string)
    (update_fails : option exn) : M state unit :=
  update_call_status self call_id "handoff"
    (<["handoff_requested" := PyBool true]>
     (<["handoff_reason" := PyStr reason]>
     (<["handoff_requested_at" := PyStr now]> ∅)))
    update_fails.

(** The entry of lines 157-161. *)
Definition transcript_entry (role text now : string) : pyval :=
  PyDict [("role", PyStr role); ("text", PyStr text); ("timestamp", PyStr now)].

Section ArrayUnion.

(** Firestore's equality of stored values, by which [ArrayUnion] decides
    whether an element is already there. *)
Variable value_eq : pyval -> pyval -> bool.

(** [ArrayUnion([x])] applied to the stored field: [x] is appended unless an
    equal element is there; a field that is no array becomes [[x]]. *)
Definition array_union (x : pyval) (stored : option pyval) : pyval :=
  match stored with
  | Some (PyList l) => if existsb (value_eq x) l then PyList l else PyList (l ++ [x])
  | _ => PyList [x]
  end.

(** [update({field: ArrayUnion([x])})] of a document reference. *)
Definition doc_array_union (fails : option exn) (id field : string) (x : pyval)
  : M state unit :=
  do _ <- outcome fails;
  do s <- get;
  match _db s with
  | Some db =>
      match calls db !! id with
      | Some old =>
          modify (set_db (Some {| orders := orders db;
                                  calls := <[id := <[field := array_union x (old !! field)]> old]>
                                             (calls db) |}))
      | None => raise (PyException ("404 No document to update: " +:+ id))
      end
  | None => ret tt
  end.

(** [append_transcript] (lines 150-173) *)
Definition append_transcript (self : FirebaseService) (call_id role text now : string)
    (update_fails : option exn) : M state unit :=
  let entry := transcript_entry role text now in
  do s <- get;
  do updated <-
    (if configured self s then
       try_except
         (do _ <- doc_array_union update_fails call_id "transcript" entry;
          ret true)
         (fun e =>
            do _ <- logger (LogText ERROR ("Error appending transcript: " +:+ str_exn e));
            ret false)
     else ret false);
  if updated : bool then ret tt
  else logger (LogText INFO ("[MOCK] Transcript for " +:+ call_id +:+ ": ["
                             +:+ role +:+ "] " +:+ text)).

End ArrayUnion.

(** *** Initialisation *)

(** The module globals [_db] and [_initialized], with the log. *)
Record globals : Type := {
  module : state;
  _initialized : bool;
}.

(** What [_init_firebase] finds outside: the environment variable
    [GOOGLE_APPLICATION_CREDENTIALS], [os.path.exists], and what building the
    client does (import, certificate, [initialize_app], [firestore.client]). *)
Record init_env : Type := {
  creds_path : option string;
  path_exists : string -> bool;
  client_outcome : exn + Firestore;
}.

Definition init_logger (r : log_record) : M globals unit :=
  modify (fun g =>
    {| module := {| _db := _db (module g); log := log (module g) ++ [r] |};
       _initialized := _initialized g |}).

(** [_init_firebase] (lines 15-40) *)
Definition _init_firebase (env : init_env) : M globals bool :=
  do g <- get;
  if _initialized g then ret (bool_decide (is_Some (_db (module g))))
  else
    do _ <- modify (fun g => {| module := module g; _initialized := true |});
    if negb (str_truthy (default "" (creds_path env)))
       || negb (path_exists env (default "" (creds_path env)))
    then
      do _ <- init_logger
                (LogText WARNING "Firebase credentials not found. Using mock data mode.");
      ret false
    else
      try_except
        (do db <- match client_outcome env with
                  | inl e => raise e
                  | inr db => ret db
                  end;
         do _ <- modify (fun g => {| module := set_db (Some db) (module g);
                                     _initialized := _initialized g |});
         do _ <- init_logger (LogText INFO "Firebase initialized successfully");
         ret true)
        (fun e =>
           do _ <- init_logger
                     (LogText WARNING ("Failed to initialize Firebase: " +:+ str_exn e
                                       +:+ ". Using mock data mode."));
           ret false).

(** [FirebaseService.__init__] *)
Definition FirebaseService_init (env : init_env) : M globals FirebaseService :=
  do use <- _init_firebase env;
  ret {| _use_firebase := use |}.

(** The module when it has just been imported. *)
Definition imported : globals :=
  {| module := {| _db := None; log := [] |}; _initialized := false |}.

End firebase_service.

(** ** [agent.py] *)

Module agent.

(** A coroutine handed to [asyncio.create_task]. *)
Inductive task : Type :=
| update_call_status (call_id : option string) (status : string).

(** What a handler does to the outside world, in the order it does it. *)
Inductive effect : Type :=
| Log (lvl : level) (msg : string)
| HttpPost (url : string) (json : list (string * pyval)) (timeout_s : Z)
| RequestHandoff (call_id reason : string)
| PublishData (payload : string) (reliable : bool)
| CreateTask (t : task).

(** The attributes of [RozetkaSalesAgent]; the room is known by its name. *)
Record RozetkaSalesAgent : Type := {
  order_context : gmap string pyval;
  call_id : option string;
  firebase : option firebase_service.FirebaseService;
  room : option string;
  _handoff_pending : bool;
}.

(** The audio switches of the [AgentSession]:
    [session.input.audio_enabled] and [session.output.audio_enabled]. *)
Record AgentSession : Type := {
  input_audio_enabled : bool;
  output_audio_enabled : bool;
}.

(** An event the room emits to the callbacks registered in [sales_agent].
    For a join, the two options say whether [set_audio_enabled] would raise
    on the input and on the output of the session. *)
Inductive room_event : Type :=
| participant_connected (identity : string) (input_fails output_fails : option exn)
| disconnected.

(** One call: the agent, its session, [ctx.proc.userdata["cleanup_tasks"]],
    the module constant [TELEGRAM_WEBHOOK_URL], the effects so far, and the
    room events that will arrive at the coming suspension points (one list
    per [await]). *)
Record World : Type := {
  self : RozetkaSalesAgent;
  session : AgentSession;
  cleanup_tasks : list task;
  TELEGRAM_WEBHOOK_URL : string;
  trace : list effect;
  inbox : list (list room_event);
}.

(** The state kept in memory for a call, as opposed to what was sent out. *)
Definition memory (w : World) : RozetkaSalesAgent * AgentSession * list task :=
  (self w, session w, cleanup_tasks w).

Definition set_self (a : RozetkaSalesAgent) (w : World) : World :=
  {| self := a; session := session w; cleanup_tasks := cleanup_tasks w;
     TELEGRAM_WEBHOOK_URL := TELEGRAM_WEBHOOK_URL w;
     trace := trace w; inbox := inbox w |}.

Definition set_session (s : AgentSession) (w : World) : World :=
  {| self := self w; session := s; cleanup_tasks := cleanup_tasks w;
     TELEGRAM_WEBHOOK_URL := TELEGRAM_WEBHOOK_URL w;
     trace := trace w; inbox := inbox w |}.

Definition set_cleanup_tasks (l : list task) (w : World) : World :=
  {| self := self w; session := session w; cleanup_tasks := l;
     TELEGRAM_WEBHOOK_URL := TELEGRAM_WEBHOOK_URL w;
     trace := trace w; inbox := inbox w |}.

Definition set_trace (t : list effect) (w : World) : World :=
  {| self := self w; session := session w; cleanup_tasks := cleanup_tasks w;
     TELEGRAM_WEBHOOK_URL := TELEGRAM_WEBHOOK_URL w;
     trace := t; inbox := inbox w |}.

Definition set_inbox (i : list (list room_event)) (w : World) : World :=
  {| self := self w; session := session w; cleanup_tasks := cleanup_tasks w;
     TELEGRAM_WEBHOOK_URL := TELEGRAM_WEBHOOK_URL w;
     trace := trace w; inbox := i |}.

(** [os.getenv("TELEGRAM_WEBHOOK_URL", "http://localhost:8000/send-link")] *)
Definition webhook_url (getenv : option string) : string :=
  default "http://localhost:8000/send-link" getenv.

(** [RozetkaSalesAgent.__init__] (the instructions text is not modelled). *)
Definition init (order_context : option (gmap string pyval))
    (call_id : option string)
    (firebase : option firebase_service.FirebaseService)
    (room : option string) : RozetkaSalesAgent :=
  {| order_context := default ∅ order_context;
     call_id := call_id;
     firebase := firebase;
     room := room;
     _handoff_pending := false |}.

(** The call when [session.start] has returned: audio enabled both ways. *)
Definition started (a : RozetkaSalesAgent) (getenv : option string) : World :=
  {| self := a;
     session := {| input_audio_enabled := true; output_audio_enabled := true |};
     cleanup_tasks := [];
     TELEGRAM_WEBHOOK_URL := webhook_url getenv;
     trace := [];
     inbox := [] |}.

Definition emit (e : effect) : M World unit :=
  modify (fun w => set_trace (trace w ++ [e]) w).

Definition logger (lvl : level) (msg : string) : M World unit :=
  emit (Log lvl msg).

(** [self._handoff_pending = b] *)
Definition set_handoff_pending (b : bool) : M World unit :=
  modify (fun w =>
    set_self {| order_context := order_context (self w);
                call_id := call_id (self w);
                firebase := firebase (self w);
                room := room (self w);
                _handoff_pending := b |} w).

(** [session.input.set_audio_enabled(b)] *)
Definition input_set_audio_enabled (b : bool) (fails : option exn) : M World unit :=
  do _ <- outcome fails;
  modify (fun w =>
    set_session {| input_audio_enabled := b;
                   output_audio_enabled := output_audio_enabled (session w) |} w).

(** [session.output.set_audio_enabled(b)] *)
Definition output_set_audio_enabled (b : bool) (fails : option exn) : M World unit :=
  do _ <- outcome fails;
  modify (fun w =>
    set_session {| input_audio_enabled := input_audio_enabled (session w);
                   output_audio_enabled := b |} w).

(** [task = asyncio.create_task(t)] followed by
    [ctx.proc.userdata.setdefault("cleanup_tasks", []).append(task)] *)
Definition create_task (t : task) : M World unit :=
  do _ <- emit (CreateTask t);
  modify (fun w => set_cleanup_tasks (cleanup_tasks w ++ [t]) w).

(** [on_participant_connected] (lines 293-319).  The [call_id] of the closure
    is the value the agent was built with (line 261), read here from the
    agent. *)
Definition on_participant_connected (identity : string)
    (input_fails output_fails : option exn) : M World unit :=
  if String.prefix "human_operator" identity then
    do _ <- logger INFO ("Human operator joined: " +:+ identity);
    do w <- get;
    if _handoff_pending (self w) then
      do _ <- logger INFO "Handoff pending - disabling AI audio I/O for warm transfer";
      do _ <- try_except
        (do _ <- input_set_audio_enabled false input_fails;
         do _ <- output_set_audio_enabled false output_fails;
         logger INFO "AI audio disabled - human operator now handling call")
        (fun e => logger ERROR ("Error disabling AI audio: " +:+ str_exn e));
      create_task (update_call_status (call_id (self w)) "human_handling")
    else
      logger INFO "Human operator joined but no handoff was requested"
  else ret tt.

(** [on_disconnect] (lines 322-329) *)
Definition on_disconnect : M World unit :=
  do w <- get;
  create_task (update_call_status (call_id (self w)) "completed").

(** The room runs the callback registered for an event; an exception of a
    callback does not reach the coroutine that is suspended meanwhile. *)
Definition callback (e : room_event) (w : World) : World :=
  match e with
  | participant_connected identity i o => snd (on_participant_connected identity i o w)
  | disconnected => snd (on_disconnect w)
  end.

(** A suspension point: the event loop runs the callbacks of the room events
    that have arrived, in arrival order, before the coroutine resumes. *)
Definition suspend : M World unit :=
  modify (fun w =>
    match inbox w with
    | [] => w
    | arrived :: later => foldl (fun w e => callback e w) (set_inbox later w) arrived
    end).

(** [await call]: the call is issued, the coroutine is suspended, and on
    resumption the call has returned or raised. *)
Definition await (call : effect) (fails : option exn) : M World unit :=
  do _ <- emit call;
  do _ <- suspend;
  outcome fails.

(** [async with httpx.AsyncClient() as client: await client.post(url, json=..., timeout=...)]:
    the status code of the response, or the exception raised.  Entering the
    client, the request and leaving the client are one suspension point. *)
Definition client_post (url : string) (json : list (string * pyval)) (timeout_s : Z)
    (response : exn + Z) : M World Z :=
  do _ <- emit (HttpPost url json timeout_s);
  do _ <- suspend;
  match response with
  | inl e => raise e
  | inr status_code => ret status_code
  end.

(** [response.raise_for_status()] of httpx: raises [HTTPStatusError] unless
    the status code is 2xx.  The text of the exception is abbreviated. *)
Definition raise_for_status (status_code : Z) : M World unit :=
  if (200 <=? status_code)%Z && (status_code <=? 299)%Z then ret tt
  else raise (HTTPStatusError ("HTTP status " +:+ pretty status_code)).

(** [send_link] (lines 90-132) *)
Definition send_link (platform link : string) (response : exn + Z) : M World string :=
  do _ <- logger INFO ("Sending link via " +:+ platform +:+ ": " +:+ link);
  do w <- get;
  let phone := dict_get (order_context (self w)) "phone" (PyStr "unknown") in
  try_except
    (do status_code <-
       client_post (TELEGRAM_WEBHOOK_URL w)
         [("platform", PyStr platform);
          ("phone", phone);
          ("link", PyStr link);
          ("customer_name", dict_get (order_context (self w)) "customer_name" (PyStr ""));
          ("product_name", dict_get (order_context (self w)) "upsell_product" (PyStr ""))]
         10 response;
     do _ <- raise_for_status status_code;
     do _ <- logger INFO ("Link sent successfully: " +:+ pretty status_code);
     ret ("Link successfully sent via " +:+ platform +:+ ". Ask if they received it."))
    (fun e =>
       if isinstance_HTTPError e then
         do _ <- logger ERROR ("Failed to send link: " +:+ str_exn e);
         ret ("Sorry, I couldn't send the link via " +:+ platform
              +:+ " right now. Please try again later or I can give you the link verbally.")
       else
         do _ <- logger ERROR ("Unexpected error sending link: " +:+ str_exn e);
         ret "There was an issue sending the link. Would you like me to read it to you instead?").

(** An entry of [context.session.history.items]; reading a [Broken] one
    raises. *)
Record ChatItem : Type := {
  item_type : string;
  item_role : string;
  text_content : option string;
}.

Inductive history_item : Type :=
| Item (i : ChatItem)
| Broken (e : exn).

(** [context.session.history]: reading it raises, or it is falsy, or it has
    items. *)
Inductive history_outcome : Type :=
| HistoryRaises (e : exn)
| HistoryNone
| HistoryItems (items : list history_item).

(** What the outside world does during one [transfer_to_human]. *)
Record transfer_env : Type := {
  persist_fails : option exn;
  history : history_outcome;
  register_response : exn + Z;
  publish_fails : option exn;
}.

(** The dictionary appended for one message (lines 169-174).  The slice
    [[:500]] counts characters; strings here are bytes, so for text outside
    ASCII the cut falls earlier than in Python. *)
Definition transcript_entry (i : ChatItem) : pyval :=
  let speaker := if String.eqb (item_role i) "user" then "user" else "agent" in
  PyDict [("speaker", PyStr speaker);
          ("text", PyStr (substring 0 500 (default "" (text_content i))));
          ("timestamp", PyStr "")].

(** The loop of lines 167-174 over the items: the transcript built so far,
    and the exception that stopped the loop, if one did. *)
Fixpoint collect (items : list history_item) (transcript : list pyval)
  : list pyval * option exn :=
  match items with
  | [] => (transcript, None)
  | Broken e :: _ => (transcript, Some e)
  | Item i :: rest =>
      if String.eqb (item_type i) "message"
         && str_truthy (default "" (text_content i))
      then collect rest (transcript ++ [transcript_entry i])
      else collect rest transcript
  end.

(** Lines 162-176: the transcript list survives the exception. *)
Definition extract_transcript (h : history_outcome) : M World (list pyval) :=
  match h with
  | HistoryRaises e =>
      do _ <- logger WARNING ("Could not extract transcript: " +:+ str_exn e);
      ret []
  | HistoryNone => ret []
  | HistoryItems items =>
      match collect items [] with
      | (transcript, None) => ret transcript
      | (transcript, Some e) =>
          do _ <- logger WARNING ("Could not extract transcript: " +:+ str_exn e);
          ret transcript
      end
  end.

(** The double-quote character (code 34). *)
Definition dq : string := String "034"%char EmptyString.

(** [str(self.call_id)] inside an f-string *)
Definition str_call_id (call_id : option string) : string :=
  default "None" call_id.

(** The f-string of line 203: the three keys and values are written between
    double quotes, with [str(self.call_id)] and [reason] pasted in as they
    are. *)
Definition handoff_payload (call_id : option string) (reason : string) : string :=
  "{" +:+ dq +:+ "type" +:+ dq +:+ ":" +:+ dq +:+ "handoff" +:+ dq +:+ ","
  +:+ dq +:+ "call_id" +:+ dq +:+ ":" +:+ dq +:+ str_call_id call_id +:+ dq +:+ ","
  +:+ dq +:+ "reason" +:+ dq +:+ ":" +:+ dq +:+ reason +:+ dq +:+ "}".

Definition pyval_of_call_id (call_id : option string) : pyval :=
  match call_id with
  | Some c => PyStr c
  | None => PyNone
  end.

Definition transfer_announcement : string :=
  "I'm connecting you with one of our team members now. Please hold for just a moment while I transfer you. They will have all the context from our conversation.".

(** [transfer_to_human] (lines 134-214) *)
Definition transfer_to_human (reason : string) (env : transfer_env) : M World string :=
  do _ <- logger INFO ("Handoff requested: " +:+ reason);
  do _ <- set_handoff_pending true;
  do w <- get;
  do _ <-
    match firebase (self w), call_id (self w) with
    | Some _, Some c =>
        if str_truthy c then
          try_except
            (await (RequestHandoff c reason) (persist_fails env))
            (fun e => logger ERROR ("Failed to update handoff status: " +:+ str_exn e))
        else ret tt
    | _, _ => ret tt
    end;
  do transcript <- extract_transcript (history env);
  do _ <-
    try_except
      (do w <- get;
       let room_name := default "unknown" (room (self w)) in
       do _ <-
         client_post "http://localhost:3000/api/handoffs/register"
           [("call_id", pyval_of_call_id (call_id (self w)));
            ("room_name", PyStr room_name);
            ("phone_number", dict_get (order_context (self w)) "phone" (PyStr "Unknown"));
            ("customer_name", dict_get (order_context (self w)) "customer_name" (PyStr "Customer"));
            ("product_name", dict_get (order_context (self w)) "product_name" (PyStr "Unknown"));
            ("reason", PyStr reason);
            ("transcript", PyList transcript)]
           5 (register_response env);
       logger INFO ("Handoff registered with dashboard for room: " +:+ room_name))
      (fun e => logger WARNING ("Could not register handoff with dashboard: " +:+ str_exn e));
  do _ <-
    try_except
      (do w <- get;
       match room (self w) with
       | Some _ =>
           await (PublishData (handoff_payload (call_id (self w)) reason) true)
                 (publish_fails env)
       | None => ret tt
       end)
      (fun e => logger WARNING ("Could not send handoff notification: " +:+ str_exn e));
  do _ <- logger INFO "Customer will be placed on hold after transfer message";
  ret transfer_announcement.

(** ** The call as a sequence of events

    A tool invocation runs its handler to completion; [arrivals] are the room
    events that arrive while it is suspended, one list per suspension point.
    Arrivals the handler did not wait long enough to see are dropped. *)
Inductive event : Type :=
| tool_send_link (platform link : string) (response : exn + Z)
    (arrivals : list (list room_event))
| tool_transfer_to_human (reason : string) (env : transfer_env)
    (arrivals : list (list room_event))
| room_emits (e : room_event).

Definition step (ev : event) (w : World) : World :=
  match ev with
  | tool_send_link platform link response arrivals =>
      set_inbox [] (snd (send_link platform link response (set_inbox arrivals w)))
  | tool_transfer_to_human reason env arrivals =>
      set_inbox [] (snd (transfer_to_human reason env (set_inbox arrivals w)))
  | room_emits e => callback e w
  end.

Definition run (evs : list event) (w : World) : World :=
  foldl (fun w ev => step ev w) w evs.

(** Who drives the audio path.  The code keeps no such field: the human owns
    the audio once the AI has been muted in some direction.  [owner_none] of
    the data model has no counterpart in memory ([on_disconnect] only queues
    the status update). *)
Inductive owner : Type := owner_agent | owner_human | owner_none.

Definition audio_owner (w : World) : owner :=
  if input_audio_enabled (session w) && output_audio_enabled (session w)
  then owner_agent else owner_human.

Definition handoff_requested (w : World) : bool := _handoff_pending (self w).

(** ** The entry point *)

Section SalesAgent.

(** Python's [str], used by the f-string of line 256. *)
Variable py_str : pyval -> string.




End SalesAgent.

End agent.

(** ** JSON texts whose value is an object of strings

    What a receiver of the data packet does with it: [json.loads] (RFC 8259)
    restricted to the texts that can encode [{type, call_id, reason}], that is
    objects all of whose member values are strings.  Strings are UTF-8 bytes
    on both sides. *)

Module json.

Definition quote : ascii := "034"%char.
Definition backslash : ascii := "092"%char.

Definition is_ws (c : ascii) : bool :=
  Ascii.eqb c " "%char || Ascii.eqb c "009"%char
  || Ascii.eqb c "010"%char || Ascii.eqb c "013"%char.

Fixpoint skip_ws (s : string) : string :=
  match s with
  | String c rest => if is_ws c then skip_ws rest else s
  | EmptyString => s
  end.

Definition hex_digit (c : ascii) : option N :=
  let n := N_of_ascii c in
  if (48 <=? n)%N && (n <=? 57)%N then Some (n - 48)%N
  else if (65 <=? n)%N && (n <=? 70)%N then Some (n - 55)%N
  else if (97 <=? n)%N && (n <=? 102)%N then Some (n - 87)%N
  else None.

Definition hex4 (a b c d : ascii) : option N :=
  match hex_digit a, hex_digit b, hex_digit c, hex_digit d with
  | Some x, Some y, Some z, Some t => Some (((x * 16 + y) * 16 + z) * 16 + t)%N
  | _, _, _, _ => None
  end.

Definition byte (n : N) : string := String (ascii_of_N n) EmptyString.

(** The UTF-8 bytes of a code point. *)
Definition utf8 (cp : N) : string :=
  if (cp <? 128)%N then byte cp
  else if (cp <? 2048)%N then
    byte (192 + cp / 64) +:+ byte (128 + cp mod 64)
  else if (cp <? 65536)%N then
    byte (224 + cp / 4096) +:+ byte (128 + (cp / 64) mod 64)
    +:+ byte (128 + cp mod 64)
  else
    byte (240 + cp / 262144) +:+ byte (128 + (cp / 4096) mod 64)
    +:+ byte (128 + (cp / 64) mod 64) +:+ byte (128 + cp mod 64).

Definition is_high_surrogate (n : N) : bool := (55296 <=? n)%N && (n <=? 56319)%N.
Definition is_low_surrogate (n : N) : bool := (56320 <=? n)%N && (n <=? 57343)%N.

(** The one-character escapes: what follows the backslash, and the byte it
    stands for. *)
Definition simple_escape (c : ascii) : option ascii :=
  if Ascii.eqb c quote then Some quote
  else if Ascii.eqb c backslash then Some backslash
  else if Ascii.eqb c "/"%char then Some "/"%char
  else if Ascii.eqb c "b"%char then Some "008"%char
  else if Ascii.eqb c "f"%char then Some "012"%char
  else if Ascii.eqb c "n"%char then Some "010"%char
  else if Ascii.eqb c "r"%char then Some "013"%char
  else if Ascii.eqb c "t"%char then Some "009"%char
  else None.

(** The rest of a string literal after its opening quote: the decoded string
    and what follows the closing quote. *)
Fixpoint string_body (s : string) : option (string * string) :=
  match s with
  | EmptyString => None
  | String c rest =>
      if Ascii.eqb c quote then Some (EmptyString, rest)
      else if (N_of_ascii c <? 32)%N then None
      else if Ascii.eqb c backslash then
        match rest with
        | String e rest1 =>
            if Ascii.eqb e "u"%char then
              match rest1 with
              | String h1 (String h2 (String h3 (String h4 rest2))) =>
                  match hex4 h1 h2 h3 h4 with
                  | Some hi =>
                      if is_high_surrogate hi then
                        match rest2 with
                        | String b (String u (String l1 (String l2 (String l3 (String l4 rest3))))) =>
                            match hex4 l1 l2 l3 l4 with
                            | Some lo =>
                                if Ascii.eqb b backslash && Ascii.eqb u "u"%char
                                   && is_low_surrogate lo
                                then
                                  match string_body rest3 with
                                  | Some (d, r) =>
                                      Some (utf8 (65536 + (hi - 55296) * 1024 + (lo - 56320))
                                            +:+ d, r)
                                  | None => None
                                  end
                                else None
                            | None => None
                            end
                        | _ => None
                        end
                      else if is_low_surrogate hi then None
                      else
                        match string_body rest2 with
                        | Some (d, r) => Some (utf8 hi +:+ d, r)
                        | None => None
                        end
                  | None => None
                  end
              | _ => None
              end
            else
              match simple_escape e with
              | Some x =>
                  match string_body rest1 with
                  | Some (d, r) => Some (String x d, r)
                  | None => None
                  end
              | None => None
              end
        | EmptyString => None
        end
      else
        match string_body rest with
        | Some (d, r) => Some (String c d, r)
        | None => None
        end
  end.

(** A string literal at the head of [s]. *)
Definition string_literal (s : string) : option (string * string) :=
  match s with
  | String c rest => if Ascii.eqb c quote then string_body rest else None
  | EmptyString => None
  end.

(** The members after the opening brace, up to and including the closing one:
    [string : string] pairs separated by commas. *)
Fixpoint members (fuel : nat) (s : string) : option (list (string * string) * string) :=
  match fuel with
  | O => None
  | S fuel' =>
      match string_literal (skip_ws s) with
      | Some (k, s1) =>
          match skip_ws s1 with
          | String c s2 =>
              if Ascii.eqb c ":"%char then
                match string_literal (skip_ws s2) with
                | Some (v, s3) =>
                    match skip_ws s3 with
                    | String c' s4 =>
                        if Ascii.eqb c' ","%char then
                          match members fuel' s4 with
                          | Some (ms, r) => Some ((k, v) :: ms, r)
                          | None => None
                          end
                        else if Ascii.eqb c' "}"%char then Some ([(k, v)], s4)
                        else None
                    | EmptyString => None
                    end
                | None => None
                end
              else None
          | EmptyString => None
          end
      | None => None
      end
  end.

(** [json.loads] on an object of strings: its members in order, or [None]
    when the text is not such a JSON text. *)
Definition loads (s : string) : option (list (string * string)) :=
  match skip_ws s with
  | String c s1 =>
      if Ascii.eqb c "{"%char then
        match skip_ws s1 with
        | String c' s2 =>
            if Ascii.eqb c' "}"%char then
              match skip_ws s2 with
              | EmptyString => Some []
              | _ => None
              end
            else
              match members (String.length s1) s1 with
              | Some (ms, r) =>
                  match skip_ws r with
                  | EmptyString => Some ms
                  | _ => None
                  end
              | None => None
              end
        | EmptyString => None
        end
      else None
  | EmptyString => None
  end.

End json.

(** ** [services/telegram_webhook.py] *)

Module telegram_webhook.

(** The line feed. *)
Definition nl : string := String "010"%char EmptyString.

(** The module constants read from the environment (lines 23-25). *)
Record config : Type := {
  TELEGRAM_API_ID : option string;
  TELEGRAM_API_HASH : option string;
  TELEGRAM_SESSION_STRING : option string;
}.

(** A [TelegramClient], by the arguments it was built with. *)
Record TelegramClient : Type := {
  session_string : string;
  api_id : Z;
  api_hash : string;
}.

(** What the service does to the outside world. *)
Inductive effect : Type :=
| Log (lvl : level) (msg : string)
| Connect (c : TelegramClient)
| GetEntity (phone : string)
| SendMessage (entity : string) (message : string)
| Disconnect (c : TelegramClient).

(** The global [_telethon_client] and the effects so far. *)
Record state : Type := {
  _telethon_client : option TelegramClient;
  trace : list effect;
}.

Definition emit (e : effect) : M state unit :=
  modify (fun s => {| _telethon_client := _telethon_client s;
                      trace := trace s ++ [e] |}).

Definition logger (lvl : level) (msg : string) : M state unit := emit (Log lvl msg).

Definition set_client (c : option TelegramClient) : M state unit :=
  modify (fun s => {| _telethon_client := c; trace := trace s |}).

(** Truthiness of an environment variable that may be unset. *)
Definition env_truthy (v : option string) : bool := str_truthy (default "" v).

(** What the outside world does during [get_telethon_client]: the import,
    [StringSession(...)], [int(TELEGRAM_API_ID)] and the constructor give the
    numeric id or raise; [connect] returns or raises. *)
Record client_env : Type := {
  build_outcome : exn + Z;
  connect_fails : option exn;
}.

(** [get_telethon_client] (lines 49-77).  The global is assigned before
    [connect] is awaited. *)
Definition get_telethon_client (cfg : config) (env : client_env)
  : M state (option TelegramClient) :=
  do s <- get;
  match _telethon_client s with
  | Some c => ret (Some c)
  | None =>
      if negb (env_truthy (TELEGRAM_API_ID cfg) && env_truthy (TELEGRAM_API_HASH cfg)
               && env_truthy (TELEGRAM_SESSION_STRING cfg))
      then
        do _ <- logger WARNING
                  ("Telethon credentials not configured. "
                   +:+ "Set TELEGRAM_API_ID, TELEGRAM_API_HASH, and TELEGRAM_SESSION_STRING");
        ret None
      else
        try_except
          (do id <- match build_outcome env with
                    | inl e => raise e
                    | inr id => ret id
                    end;
           let c := {| session_string := default "" (TELEGRAM_SESSION_STRING cfg);
                       api_id := id;
                       api_hash := default "" (TELEGRAM_API_HASH cfg) |} in
           do _ <- set_client (Some c);
           do _ <- emit (Connect c);
           do _ <- outcome (connect_fails env);
           do _ <- logger INFO "Telethon client connected successfully";
           ret (Some c))
          (fun e =>
             do _ <- logger ERROR ("Failed to initialize Telethon client: " +:+ str_exn e);
             ret None)
  end.

(** [s.lower()] on the letters A to Z. *)
Definition lower_ascii (c : ascii) : ascii :=
  let n := N_of_ascii c in
  if (65 <=? n)%N && (n <=? 90)%N then ascii_of_N (n + 32) else c.

Fixpoint lower (s : string) : string :=
  match s with
  | EmptyString => EmptyString
  | String c rest => String (lower_ascii c) (lower rest)
  end.

(** [sub in s] *)
Fixpoint contains (sub s : string) : bool :=
  String.prefix sub s
  || match s with
     | EmptyString => false
     | String _ rest => contains sub rest
     end.

(** Lines 165-166: the number with a leading plus sign. *)
Definition normalize_phone (phone : string) : string :=
  if String.prefix "+" phone then phone else "+" +:+ phone.

(** What the outside world does during one send: building the client, and
    [get_entity] and [send_message] of Telethon. *)
Record send_env : Type := {
  client : client_env;
  get_entity_fails : option exn;
  send_message_fails : option exn;
}.

(** [_send_telegram_mtproto] (lines 150-182).  The entity is known by the
    number it was resolved from. *)
Definition _send_telegram_mtproto (cfg : config) (env : send_env)
    (phone message : string) : M state bool :=
  do c <- get_telethon_client cfg (client env);
  match c with
  | None =>
      do _ <- logger INFO ("[MOCK TELEGRAM] To " +:+ phone +:+ ": " +:+ message);
      ret true
  | Some _ =>
      let phone := normalize_phone phone in
      try_except
        (do _ <- emit (GetEntity phone);
         do _ <- outcome (get_entity_fails env);
         do _ <- emit (SendMessage phone message);
         do _ <- outcome (send_message_fails env);
         do _ <- logger INFO ("[TELEGRAM MTProto] Message sent to " +:+ phone);
         ret true)
        (fun e =>
           do _ <- logger ERROR ("Failed to send Telegram message to " +:+ phone
                                 +:+ ": " +:+ str_exn e);
           do _ <- (if contains "user" (lower (str_exn e))
                       && contains "not" (lower (str_exn e))
                    then logger WARNING ("User " +:+ phone
                                         +:+ " may not have Telegram installed")
                    else ret tt);
           ret false)
  end.

(** [_send_viber] (lines 185-192) *)
Definition _send_viber (phone message : string) : M state bool :=
  do _ <- logger INFO ("[MOCK VIBER] To " +:+ phone +:+ ": " +:+ message);
  ret true.

(** [SendLinkRequest]; pydantic admits the request when the platform is one
    of the two literals. *)
Record SendLinkRequest : Type := {
  platform : string;
  phone : string;
  link : string;
  customer_name : string;
  product_name : string;
}.

Definition validated (request : SendLinkRequest) : bool :=
  String.eqb (platform request) "telegram" || String.eqb (platform request) "viber".

(** What the endpoint gives back: a [SendLinkResponse], or an
    [HTTPException]. *)
Inductive reply : Type :=
| SendLinkResponse (success : bool) (message platform : string)
| HTTPException (status_code : Z) (detail : string).

(** The status code FastAPI answers with. *)
Definition status_code_of (r : reply) : Z :=
  match r with
  | SendLinkResponse _ _ _ => 200
  | HTTPException status_code _ => status_code
  end.

(** Lines 111-115. *)
Definition build_message (request : SendLinkRequest) : string :=
  "Hi " +:+ customer_name request +:+ "!" +:+ nl +:+ nl
  +:+ (if str_truthy (product_name request)
       then "Here's the link to " +:+ product_name request +:+ ":" +:+ nl
       else "")
  +:+ link request +:+ nl +:+ nl
  +:+ "Thank you for shopping with Rozetka!".

(** The endpoint [send_link] (lines 99-137). *)
Definition send_link (cfg : config) (env : send_env) (request : SendLinkRequest)
  : M state reply :=
  do _ <- logger INFO ("Received send_link request: " +:+ platform request
                       +:+ " -> " +:+ phone request);
  let message := build_message request in
  do sent <-
    (if String.eqb (platform request) "telegram" then
       do ok <- _send_telegram_mtproto cfg env (phone request) message;
       ret (Some ok)
     else if String.eqb (platform request) "viber" then
       do ok <- _send_viber (phone request) message;
       ret (Some ok)
     else ret None);
  match sent with
  | None => ret (HTTPException 400 ("Unsupported platform: " +:+ platform request))
  | Some true => ret (SendLinkResponse true "Link sent successfully" (platform request))
  | Some false => ret (HTTPException 500 "Failed to send message")
  end.

(** The handler of the shutdown event (lines 139-145); [disconnect_fails]
    is what [disconnect] does. *)
Definition shutdown (disconnect_fails : option exn) : M state unit :=
  do s <- get;
  match _telethon_client s with
  | Some c =>
      do _ <- emit (Disconnect c);
      do _ <- outcome disconnect_fails;
      set_client None
  | None => ret tt
  end.

(** The endpoint [health_check] (line 97): the value of [mtproto_configured]. *)
Definition health_check (cfg : config) : bool := env_truthy (TELEGRAM_API_ID cfg).

(** The service when the module has just been imported. *)
Definition imported : state := {| _telethon_client := None; trace := [] |}.

(** A request to the endpoint, with what the outside world does meanwhile. *)
Definition serve (cfg : config) (s : state) (r : send_env * SendLinkRequest) : state :=
  snd (send_link cfg (fst r) (snd r) s).

End telegram_webhook.

(** ** Vocabulary of the properties *)

(** A computation that never raises. *)
Definition returns {St A} (m : M St A) : Prop :=
  forall s, exists a, fst (m s) = Ok a.

(** A computation that never raises and always returns [v]. *)
Definition yields {St A} (m : M St A) (v : A) : Prop :=
  forall s, fst (m s) = Ok v.

(** The keys of an order context. *)
Definition order_keys : gset string :=
  {[ "order_id"; "customer_name"; "product_name"; "product_price";
     "upsell_product"; "upsell_price" ]}.

(** The hand-off flag is set. *)
Definition pending (w : agent.World) : Prop :=
  agent.handoff_requested w = true.

(** The AI has been muted in some direction only if the flag is set. *)
Definition handoff_invariant (w : agent.World) : Prop :=
  (agent.input_audio_enabled (agent.session w) = false
   \/ agent.output_audio_enabled (agent.session w) = false)
  -> agent.handoff_requested w = true.

(** The AI is muted in both directions. *)
Definition muted (w : agent.World) : Prop :=
  agent.input_audio_enabled (agent.session w) = false
  /\ agent.output_audio_enabled (agent.session w) = false.

(** A property of the world that only looks at the agent and the session. *)
Definition stable (P : agent.World -> Prop) : Prop :=
  forall w w', agent.self w = agent.self w' -> agent.session w = agent.session w'
               -> P w -> P w'.

(** From [w] to [w'] the trace was only extended, by effects that satisfy [Q]. *)
Definition grows (Q : agent.effect -> Prop) (w w' : agent.World) : Prop :=
  exists new, agent.trace w' = (agent.trace w ++ new)%list /\ Forall Q new.

(** Started where [P] holds, [m] ends (returning or raising) where [R] holds,
    having emitted only effects that satisfy [Q]. *)
Definition triple (Q : agent.effect -> Prop) (P : agent.World -> Prop) {A}
    (m : M agent.World A) (R : agent.World -> Prop) : Prop :=
  forall w, P w -> R (snd (m w)) /\ grows Q w (snd (m w)).

(** The callbacks of the room keep [P] and emit only effects in [Q]. *)
Definition callbacks_keep (Q : agent.effect -> Prop) (P : agent.World -> Prop) : Prop :=
  forall e w, P w -> P (agent.callback e w) /\ grows Q w (agent.callback e w).

(** A property of the world that survives an effect being emitted. *)
Definition appendable (P : agent.World -> Prop) : Prop :=
  forall w e, P w -> P (agent.set_trace (agent.trace w ++ [e]) w).

(** The effects emitted since the trace had length [n]. *)
Definition emitted_since (n : nat) (w : agent.World) : list agent.effect :=
  drop n (agent.trace w).

(** The log line of the branch of [on_participant_connected] that leaves the
    call with the AI. *)
Definition ignored_log : agent.effect :=
  agent.Log INFO "Human operator joined but no handoff was requested".

(** The attributes of the agent that no handler assigns. *)
Definition same_agent (a : agent.RozetkaSalesAgent) (w : agent.World) : Prop :=
  agent.order_context (agent.self w) = agent.order_context a
  /\ agent.call_id (agent.self w) = agent.call_id a
  /\ agent.firebase (agent.self w) = agent.firebase a
  /\ agent.room (agent.self w) = agent.room a.

(** C8 as the specification words it: whatever the mode, two creations give
    two different identifiers. *)
Definition create_returns_fresh_ids : Prop :=
  forall self s room1 phone1 ctx1 now1 env1 room2 phone2 ctx2 now2 env2,
    let r1 := firebase_service.log_call_start self room1 phone1 ctx1 now1 env1 s in
    let r2 := firebase_service.log_call_start self room2 phone2 ctx2 now2 env2 (snd r1) in
    fst r1 <> fst r2.

(** C9 as the specification words it: the packet decodes to the object with
    the members [type], [call_id] and [reason]. *)
Definition payload_encodes (call_id reason : string) : Prop :=
  json.loads (agent.handoff_payload (Some call_id) reason)
  = Some [("type", "handoff"); ("call_id", call_id); ("reason", reason)].

(** The world after a join by a human operator that finds the flag set: the
    AI is muted as far as [set_audio_enabled] got, and the status update is
    queued. *)
Definition joined (identity : string) (i o : option exn) (w : agent.World)
  : agent.World :=
  let t := agent.update_call_status (agent.call_id (agent.self w)) "human_handling" in
  let input_off :=
    {| agent.input_audio_enabled := false;
       agent.output_audio_enabled := agent.output_audio_enabled (agent.session w) |} in
  let both_off :=
    {| agent.input_audio_enabled := false; agent.output_audio_enabled := false |} in
  let finish s logs :=
    {| agent.self := agent.self w;
       agent.session := s;
       agent.cleanup_tasks := agent.cleanup_tasks w ++ [t];
       agent.TELEGRAM_WEBHOOK_URL := agent.TELEGRAM_WEBHOOK_URL w;
       agent.trace :=
         agent.trace w
         ++ [agent.Log INFO ("Human operator joined: " +:+ identity);
             agent.Log INFO "Handoff pending - disabling AI audio I/O for warm transfer"]
         ++ logs ++ [agent.CreateTask t];
       agent.inbox := agent.inbox w |} in
  let failed e := agent.Log ERROR ("Error disabling AI audio: " +:+ str_exn e) in
  match i, o with
  | Some e, _ => finish (agent.session w) [failed e]
  | None, Some e => finish input_off [failed e]
  | None, None =>
      finish both_off
        [agent.Log INFO "AI audio disabled - human operator now handling call"]
  end.


(** A chat item that reaches the transcript: a message with a text. *)
Definition spoken (i : agent.ChatItem) : bool :=
  String.eqb (agent.item_type i) "message"
  && str_truthy (default "" (agent.text_content i)).

(** A property of the world that does not look at the inbox. *)
Definition deaf (P : agent.World -> Prop) : Prop :=
  forall w i, P w -> P (agent.set_inbox i w).

(** What a callback of the room may emit: log lines and created tasks. *)
Definition from_callback (e : agent.effect) : bool :=
  match e with
  | agent.Log _ _ | agent.CreateTask _ => true
  | _ => false
  end.

(** The body of the request of [send_link] (lines 115-121), for an agent. *)
Definition send_link_json (a : agent.RozetkaSalesAgent) (platform link : string)
  : list (string * pyval) :=
  [("platform", PyStr platform);
   ("phone", dict_get (agent.order_context a) "phone" (PyStr "unknown"));
   ("link", PyStr link);
   ("customer_name", dict_get (agent.order_context a) "customer_name" (PyStr ""));
   ("product_name", dict_get (agent.order_context a) "upsell_product" (PyStr ""))].

(** The status update of a hand-off that was taken is queued. *)
Definition human_handling_queued (w : agent.World) : Prop :=
  agent.update_call_status (agent.call_id (agent.self w)) "human_handling"
  ∈ agent.cleanup_tasks w.

(** Once the AI is muted in some direction, the status update is queued. *)
Definition muted_is_recorded (w : agent.World) : Prop :=
  (agent.input_audio_enabled (agent.session w) = false
   \/ agent.output_audio_enabled (agent.session w) = false)
  -> human_handling_queued w.

(** A string that can stand between double quotes in a JSON text as it is:
    no double quote, no backslash, no control character. *)
Definition plain (s : string) : Prop :=
  Forall (fun c => c <> json.quote /\ c <> json.backslash
                   /\ (32 <= N_of_ascii c)%N)
         (list_ascii_of_string s).

(** The attempts to connect in a trace of the webhook service. *)
Definition is_connect (e : telegram_webhook.effect) : bool :=
  match e with
  | telegram_webhook.Connect _ => true
  | _ => false
  end.

Definition connects (t : list telegram_webhook.effect) : nat :=
  length (List.filter is_connect t).

(** The three credentials of the webhook service are set. *)
Definition configured_mtproto (cfg : telegram_webhook.config) : bool :=
  telegram_webhook.env_truthy (telegram_webhook.TELEGRAM_API_ID cfg)
  && telegram_webhook.env_truthy (telegram_webhook.TELEGRAM_API_HASH cfg)
  && telegram_webhook.env_truthy (telegram_webhook.TELEGRAM_SESSION_STRING cfg).

(** The client that [get_telethon_client] builds. *)
Definition built (cfg : telegram_webhook.config) (id : Z)
  : telegram_webhook.TelegramClient :=
  {| telegram_webhook.session_string :=
       default "" (telegram_webhook.TELEGRAM_SESSION_STRING cfg);
     telegram_webhook.api_id := id;
     telegram_webhook.api_hash :=
       default "" (telegram_webhook.TELEGRAM_API_HASH cfg) |}.

(** A request to Telegram that concerns a recipient. *)
Definition reaches_telegram (e : telegram_webhook.effect) : bool :=
  match e with
  | telegram_webhook.GetEntity _ | telegram_webhook.SendMessage _ _ => true
  | _ => false
  end.

(** The log lines of the [except] clause of [_send_telegram_mtproto]. *)
Definition send_failure_log (phone : string) (e : exn) : list telegram_webhook.effect :=
  telegram_webhook.Log ERROR
    ("Failed to send Telegram message to " +:+ phone +:+ ": " +:+ str_exn e)
  :: (if telegram_webhook.contains "user" (telegram_webhook.lower (str_exn e))
         && telegram_webhook.contains "not" (telegram_webhook.lower (str_exn e))
      then [telegram_webhook.Log WARNING
              ("User " +:+ phone +:+ " may not have Telegram installed")]
      else []).

(** What [_send_telegram_mtproto] emits once it has a client. *)
Definition send_effects (env : telegram_webhook.send_env) (phone message : string)
  : list telegram_webhook.effect :=
  let to := telegram_webhook.normalize_phone phone in
  match telegram_webhook.get_entity_fails env, telegram_webhook.send_message_fails env with
  | Some e, _ => telegram_webhook.GetEntity to :: send_failure_log to e
  | None, Some e =>
      telegram_webhook.GetEntity to :: telegram_webhook.SendMessage to message
      :: send_failure_log to e
  | None, None =>
      [telegram_webhook.GetEntity to; telegram_webhook.SendMessage to message;
       telegram_webhook.Log INFO ("[TELEGRAM MTProto] Message sent to " +:+ to)]
  end.

(** Both requests to Telegram returned. *)
Definition delivered (env : telegram_webhook.send_env) : bool :=
  bool_decide (telegram_webhook.get_entity_fails env = None)
  && bool_decide (telegram_webhook.send_message_fails env = None).

(** At most one connection was attempted, and none while no client is
    kept. *)
Definition connected_once (s : telegram_webhook.state) : Prop :=
  connects (telegram_webhook.trace s) <= 1
  /\ (telegram_webhook._telethon_client s = None
      -> connects (telegram_webhook.trace s) = 0).

(** The answers of the endpoint to a request it admits. *)
Definition sent_reply (request : telegram_webhook.SendLinkRequest)
  : telegram_webhook.reply :=
  telegram_webhook.SendLinkResponse true "Link sent successfully"
    (telegram_webhook.platform request).

Definition failed_reply : telegram_webhook.reply :=
  telegram_webhook.HTTPException 500 "Failed to send message".

(** Equality of values by their structure (maps compared in key order). *)
Fixpoint pyval_eqb (a b : pyval) {struct a} : bool :=
  match a, b with
  | PyNone, PyNone => true
  | PyBool x, PyBool y => Bool.eqb x y
  | PyInt x, PyInt y => Z.eqb x y
  | PyStr x, PyStr y => String.eqb x y
  | PyList xs, PyList ys =>
      (fix all2 (xs ys : list pyval) : bool :=
         match xs, ys with
         | [], [] => true
         | x :: xs', y :: ys' => pyval_eqb x y && all2 xs' ys'
         | _, _ => false
         end) xs ys
  | PyDict xs, PyDict ys =>
      (fix all2 (xs ys : list (string * pyval)) : bool :=
         match xs, ys with
         | [], [] => true
         | (k, x) :: xs', (k', y) :: ys' =>
             String.eqb k k' && pyval_eqb x y && all2 xs' ys'
         | _, _ => false
         end) xs ys
  | _, _ => false
  end.

(** * Properties *)

(** ** The monad *)

Section Monad.
Context {St : Type}.

Lemma bind_modify {A} (f : St -> St) (k : unit -> M St A) s :
  bind (modify f) k s = k tt (f s).
Proof. reflexivity. Qed.

Lemma bind_get {A} (k : St -> M St A) s : bind get k s = k s s.
Proof. reflexivity. Qed.

Lemma returns_ret {A} (a : A) : returns (St:=St) (ret a).
Proof. intros s. by exists a. Qed.

Lemma returns_get : returns (@get St).
Proof. intros s. by exists s. Qed.

Lemma returns_modify (f : St -> St) : returns (modify f).
Proof. intros s. by exists tt. Qed.

Lemma returns_bind {A B} (m : M St A) (f : A -> M St B) :
  returns m -> (forall a, returns (f a)) -> returns (bind m f).
Proof.
  intros Hm Hf s. unfold bind. destruct (Hm s) as [a Ha].
  destruct (m s) as [[a'|e] s']; simpl in Ha; [|discriminate].
  apply Hf.
Qed.

Lemma returns_try_except {A} (body : M St A) (h : exn -> M St A) :
  (forall e, returns (h e)) -> returns (try_except body h).
Proof.
  intros Hh s. unfold try_except. destruct (body s) as [[a|e] s'].
  - by exists a.
  - apply Hh.
Qed.

End Monad.

Create HintDb handlers.
#[local] Hint Resolve returns_ret returns_get returns_modify returns_bind
  returns_try_except : handlers.

(** ** Triples over the world of a call *)

Section Triples.
Import agent.
Variable Q : effect -> Prop.

Lemma grows_refl w : grows Q w w.
Proof. exists []. split; [by rewrite app_nil_r | constructor]. Qed.

Lemma grows_trans w1 w2 w3 : grows Q w1 w2 -> grows Q w2 w3 -> grows Q w1 w3.
Proof.
  intros (n1 & H1 & F1) (n2 & H2 & F2). exists (n1 ++ n2)%list. split.
  - by rewrite H2, H1, app_assoc.
  - by apply Forall_app.
Qed.

Lemma grows_same_trace w w' : trace w' = trace w -> grows Q w w'.
Proof. intros H. exists []. split; [by rewrite app_nil_r | constructor]. Qed.

Lemma triple_weaken (P P' R R' : World -> Prop) {A} (m : M World A) :
  (forall w, P' w -> P w) -> (forall w, R w -> R' w) ->
  triple Q P m R -> triple Q P' m R'.
Proof. intros HP HR H w Hw. destruct (H w (HP w Hw)). auto. Qed.

Lemma triple_ret P {A} (a : A) : triple Q P (ret a) P.
Proof. intros w Hw. split; [done | apply grows_refl]. Qed.

Lemma triple_raise P {A} e : triple Q P (raise (A:=A) e) P.
Proof. intros w Hw. split; [done | apply grows_refl]. Qed.

Lemma triple_get P : triple Q P get P.
Proof. intros w Hw. split; [done | apply grows_refl]. Qed.

Lemma triple_outcome P o : triple Q P (outcome o) P.
Proof. destruct o; [apply triple_raise | apply triple_ret]. Qed.

Lemma triple_bind_gen P R R' {A B} (m : M World A) (f : A -> M World B) :
  triple Q P m R -> (forall w, R w -> R' w) -> (forall a, triple Q R (f a) R') ->
  triple Q P (bind m f) R'.
Proof.
  intros Hm HR Hf w Hw. unfold bind. destruct (Hm w Hw) as [HP Hg].
  destruct (m w) as [[a|e] w']; simpl in *; [|auto].
  destruct (Hf a w' HP). eauto using grows_trans.
Qed.

Lemma triple_bind P {A B} (m : M World A) (f : A -> M World B) :
  triple Q P m P -> (forall a, triple Q P (f a) P) -> triple Q P (bind m f) P.
Proof. intros Hm Hf. by apply triple_bind_gen with (R := P). Qed.

Lemma triple_bind_total P R R' {A B} (m : M World A) (f : A -> M World B) :
  returns m -> triple Q P m R -> (forall a, triple Q R (f a) R') ->
  triple Q P (bind m f) R'.
Proof.
  intros Ht Hm Hf w Hw. unfold bind. destruct (Hm w Hw) as [HP Hg].
  destruct (Ht w) as [a Ha].
  destruct (m w) as [[a'|e] w']; simpl in *; [|discriminate].
  destruct (Hf a' w' HP). eauto using grows_trans.
Qed.

(** What [get] returns satisfies the precondition. *)
Lemma triple_bind_get P R {B} (f : World -> M World B) :
  (forall a, P a -> triple Q P (f a) R) -> triple Q P (bind get f) R.
Proof. intros Hf w Hw. rewrite bind_get. by apply (Hf w Hw). Qed.

Lemma triple_try_except_gen P R R' {A} (body : M World A) (h : exn -> M World A) :
  triple Q P body R -> (forall w, R w -> R' w) -> (forall e, triple Q R (h e) R') ->
  triple Q P (try_except body h) R'.
Proof.
  intros Hb HR Hh w Hw. unfold try_except. destruct (Hb w Hw) as [HP Hg].
  destruct (body w) as [[a|e] w']; simpl in *; [auto|].
  destruct (Hh e w' HP). eauto using grows_trans.
Qed.

Lemma triple_try_except P {A} (body : M World A) (h : exn -> M World A) :
  triple Q P body P -> (forall e, triple Q P (h e) P) ->
  triple Q P (try_except body h) P.
Proof. intros Hb Hh. by apply triple_try_except_gen with (R := P). Qed.

Lemma triple_emit P e : appendable P -> Q e -> triple Q P (emit e) P.
Proof.
  intros HP He w Hw. split.
  - by apply HP.
  - exists [e]. split; [done | by constructor].
Qed.

Lemma triple_logger P lvl msg :
  appendable P -> Q (Log lvl msg) -> triple Q P (logger lvl msg) P.
Proof. apply triple_emit. Qed.

Lemma triple_silent P R (f : World -> World) :
  (forall w, P w -> R (f w)) -> (forall w, trace (f w) = trace w) ->
  triple Q P (modify f) R.
Proof.
  intros HP Ht w Hw. unfold modify; simpl.
  split; [by apply HP | by apply grows_same_trace].
Qed.

Lemma stable_appendable P : stable P -> appendable P.
Proof. intros HP w e. by apply HP. Qed.

(** The callbacks that run at a suspension point keep what each of them
    keeps. *)
Lemma triple_suspend P : stable P -> callbacks_keep Q P -> triple Q P suspend P.
Proof.
  intros HP Hc w Hw. unfold suspend, modify. simpl.
  destruct (inbox w) as [|arrived later]; [split; [done | apply grows_refl]|].
  assert (H0 : P (set_inbox later w) /\ grows Q w (set_inbox later w)).
  { split; [by apply (HP w) | by apply grows_same_trace]. }
  revert H0. generalize (set_inbox later w) as w0.
  induction arrived as [|e arrived IH]; intros w0 [H1 H2]; simpl; [done|].
  apply IH. destruct (Hc e w0 H1). eauto using grows_trans.
Qed.

Lemma triple_await P call fails :
  appendable P -> triple Q P suspend P -> Q call -> triple Q P (await call fails) P.
Proof.
  intros HP Hc Hq. unfold await.
  apply triple_bind; [by apply triple_emit|]. intros _.
  apply triple_bind; [done|]. intros _.
  apply triple_outcome.
Qed.

Lemma triple_client_post P url json timeout_s response :
  appendable P -> triple Q P suspend P -> Q (HttpPost url json timeout_s) ->
  triple Q P (client_post url json timeout_s response) P.
Proof.
  intros HP Hc Hq. unfold client_post.
  apply triple_bind; [by apply triple_emit|]. intros _.
  apply triple_bind; [done|]. intros _.
  destruct response; [apply triple_raise | apply triple_ret].
Qed.

Lemma triple_raise_for_status P status : triple Q P (raise_for_status status) P.
Proof.
  unfold raise_for_status.
  destruct (_ && _); [apply triple_ret | apply triple_raise].
Qed.

End Triples.

(** ** The callbacks of the room *)

Section Callbacks.
Import agent.

Lemma stable_true : stable (fun _ => True).
Proof. done. Qed.

Lemma stable_pending : stable pending.
Proof. intros w w' Hs _. unfold pending, handoff_requested. by rewrite Hs. Qed.

Lemma stable_handoff_invariant : stable handoff_invariant.
Proof.
  intros w w' Hs Hse. unfold handoff_invariant, handoff_requested.
  by rewrite Hs, Hse.
Qed.

Lemma stable_muted : stable muted.
Proof. intros w w' _ Hse. unfold muted. by rewrite Hse. Qed.

Lemma stable_same_agent a : stable (same_agent a).
Proof. intros w w' Hs _. unfold same_agent. by rewrite Hs. Qed.

Lemma stable_and P R : stable P -> stable R -> stable (fun w => P w /\ R w).
Proof. intros HP HR w w' Hs Hse [H1 H2]. split; eauto. Qed.

Lemma pending_invariant w : pending w -> handoff_invariant w.
Proof. intros H _. exact H. Qed.

(** What a join does, case by case. *)
Lemma on_participant_connected_other identity i o w :
  String.prefix "human_operator" identity = false ->
  on_participant_connected identity i o w = (Ok tt, w).
Proof. intros H. unfold on_participant_connected. by rewrite H. Qed.

Lemma on_participant_connected_ignored identity i o w :
  String.prefix "human_operator" identity = true ->
  _handoff_pending (self w) = false ->
  on_participant_connected identity i o w =
    (Ok tt,
     set_trace (trace w ++ [Log INFO ("Human operator joined: " +:+ identity);
                            ignored_log]) w).
Proof.
  intros H Hp. unfold on_participant_connected. rewrite H.
  unfold logger, emit. rewrite bind_modify, bind_get. simpl. rewrite Hp.
  unfold modify, set_trace. simpl. by rewrite <- app_assoc.
Qed.

Lemma on_participant_connected_handoff identity i o w :
  String.prefix "human_operator" identity = true ->
  _handoff_pending (self w) = true ->
  on_participant_connected identity i o w = (Ok tt, joined identity i o w).
Proof.
  intros H Hp. unfold on_participant_connected. rewrite H.
  unfold logger, emit. rewrite bind_modify, bind_get. simpl. rewrite Hp.
  rewrite bind_modify. unfold joined.
  destruct i as [e|], o as [e'|]; cbn; unfold set_trace, set_cleanup_tasks; cbn;
    rewrite <- ?app_assoc; reflexivity.
Qed.

End Callbacks.

Section CallbacksKeep.
Import agent.

Lemma grows_any w w' new :
  trace w' = (trace w ++ new)%list -> grows (fun _ => True) w w'.
Proof. intros H. exists new. split; [done | by apply Forall_true]. Qed.

Lemma trace_joined identity i o w :
  exists new, trace (joined identity i o w) = (trace w ++ new)%list
              /\ ignored_log ∉ new.
Proof.
  unfold joined. destruct i, o; cbn; eexists; (split; [reflexivity|]);
    unfold ignored_log; rewrite !not_elem_of_cons; repeat split;
    try discriminate; apply not_elem_of_nil.
Qed.

(** Every callback, case by case: the world is unchanged, or only the trace
    and the queued tasks grew, or the join muted the AI with the flag set. *)
Lemma callback_cases e w :
  callback e w = w
  \/ (exists t new,
        callback e w = set_cleanup_tasks t (set_trace (trace w ++ new) w)
        /\ (pending w -> ignored_log ∉ new))
  \/ (exists identity i o,
        pending w /\ callback e w = joined identity i o w).
Proof.
  destruct e as [identity i o|]; simpl.
  - destruct (String.prefix "human_operator" identity) eqn:Hpre.
    + destruct (_handoff_pending (self w)) eqn:Hp.
      * right; right. exists identity, i, o. split; [done|].
        by rewrite on_participant_connected_handoff.
      * right; left. rewrite on_participant_connected_ignored by done.
        eexists (cleanup_tasks w), _. split.
        -- destruct w; reflexivity.
        -- unfold pending, handoff_requested. congruence.
    + left. by rewrite on_participant_connected_other.
  - right; left. eexists _, [_]. split; [reflexivity|].
    intros _. unfold ignored_log. rewrite not_elem_of_cons. split; [discriminate|].
    apply not_elem_of_nil.
Qed.

Lemma callbacks_keep_invariant : callbacks_keep (fun _ => True) handoff_invariant.
Proof.
  intros e w Hw.
  destruct (callback_cases e w) as [->|[(t & new & -> & _)|(id & i & o & Hp & ->)]].
  - split; [done | apply (grows_any _ _ [])]. by rewrite app_nil_r.
  - split; [by apply (stable_handoff_invariant w) | by apply (grows_any _ _ new)].
  - split.
    + apply pending_invariant. revert Hp. unfold pending, handoff_requested, joined.
      by destruct i, o.
    + destruct (trace_joined id i o w) as (new & Hn & _). by apply (grows_any _ _ new).
Qed.

Lemma callbacks_keep_same_agent a : callbacks_keep (fun _ => True) (same_agent a).
Proof.
  intros e w Hw.
  destruct (callback_cases e w) as [->|[(t & new & -> & _)|(id & i & o & Hp & ->)]].
  - split; [done | apply (grows_any _ _ [])]. by rewrite app_nil_r.
  - split; [by apply (stable_same_agent a w) | by apply (grows_any _ _ new)].
  - split.
    + revert Hw. unfold same_agent, joined. by destruct i, o.
    + destruct (trace_joined id i o w) as (new & Hn & _). by apply (grows_any _ _ new).
Qed.

(** No callback assigns an attribute of the agent. *)
Lemma callbacks_keep_self a : callbacks_keep (fun _ => True) (fun w => self w = a).
Proof.
  intros e w Hw.
  destruct (callback_cases e w) as [->|[(t & new & -> & _)|(id & i & o & Hp & ->)]].
  - split; [done | apply (grows_any _ _ [])]. by rewrite app_nil_r.
  - split; [done | by apply (grows_any _ _ new)].
  - split.
    + revert Hw. unfold joined. by destruct i, o.
    + destruct (trace_joined id i o w) as (new & Hn & _). by apply (grows_any _ _ new).
Qed.

Lemma callbacks_keep_muted : callbacks_keep (fun _ => True) muted.
Proof.
  intros e w Hw.
  destruct (callback_cases e w) as [->|[(t & new & -> & _)|(id & i & o & Hp & ->)]].
  - split; [done | apply (grows_any _ _ [])]. by rewrite app_nil_r.
  - split; [by apply (stable_muted w) | by apply (grows_any _ _ new)].
  - split.
    + revert Hw. unfold muted, joined. destruct i, o; cbn; tauto.
    + destruct (trace_joined id i o w) as (new & Hn & _). by apply (grows_any _ _ new).
Qed.

Lemma callbacks_keep_pending : callbacks_keep (fun e => e <> ignored_log) pending.
Proof.
  assert (HF : forall new : list effect,
             ignored_log ∉ new -> Forall (fun e => e <> ignored_log) new).
  { intros new Hn. apply Forall_forall. intros e He ->. done. }
  intros e w Hw.
  destruct (callback_cases e w) as [->|[(t & new & -> & Hn)|(id & i & o & Hp & ->)]].
  - split; [done | apply grows_refl].
  - split; [by apply (stable_pending w) | exists new; auto].
  - split.
    + revert Hw. unfold pending, handoff_requested, joined. by destruct i, o.
    + destruct (trace_joined id i o w) as (new & Hn & Hi). exists new; auto.
Qed.

Lemma callbacks_keep_and Q P R :
  callbacks_keep Q P -> callbacks_keep Q R ->
  callbacks_keep Q (fun w => P w /\ R w).
Proof.
  intros HP HR e w [H1 H2]. destruct (HP e w H1), (HR e w H2). auto.
Qed.

Lemma callbacks_keep_weaken (Q Q' : effect -> Prop) P :
  (forall e, Q e -> Q' e) -> callbacks_keep Q P -> callbacks_keep Q' P.
Proof.
  intros HQ H e w Hw. destruct (H e w Hw) as [H1 (new & H2 & H3)].
  split; [done|]. exists new. split; [done|]. eapply Forall_impl; eauto.
Qed.

End CallbacksKeep.

(** ** The tool handlers *)

(** The effect at hand is not the log line of the ignored join. *)
Ltac emitted :=
  first
    [ exact I
    | match goal with
      | H : forall e, e <> ignored_log -> _ |- _ => apply H
      end; unfold ignored_log; cbn; discriminate
    | cbv beta; unfold ignored_log; cbn; discriminate ].

(** Walks a handler whose every step keeps the assertion: the hypotheses say
    that it survives an emitted effect and a suspension point. *)
Ltac kept :=
  repeat first
    [ assumption
    | apply triple_ret | apply triple_raise | apply triple_get
    | apply triple_outcome | apply triple_raise_for_status
    | (apply triple_emit; [assumption | emitted])
    | (apply triple_logger; [assumption | emitted])
    | (apply triple_client_post; [assumption | assumption | emitted])
    | (apply triple_await; [assumption | assumption | emitted])
    | apply triple_bind | apply triple_try_except
    | match goal with
      | |- forall _, _ => intro
      | |- triple _ _ (match ?x with _ => _ end) _ => destruct x
      end ].

Section Handlers.
Import agent.
Variable Q : effect -> Prop.
Hypothesis HQ : forall e, e <> ignored_log -> Q e.

Lemma triple_extract_transcript P h :
  appendable P -> triple Q P (extract_transcript h) P.
Proof.
  intros HP. unfold extract_transcript. destruct h as [e| |items]; kept.
Qed.

Lemma triple_send_link P platform link response :
  appendable P -> triple Q P suspend P ->
  triple Q P (send_link platform link response) P.
Proof. intros HP Hc. unfold send_link. kept. Qed.

(** Once the flag is set, the rest of [transfer_to_human] keeps whatever the
    suspension points keep. *)
Lemma triple_transfer_to_human P reason env :
  appendable P ->
  (forall w, P w -> P (snd (set_handoff_pending true w))) ->
  triple Q (fun w => P w /\ pending w) suspend (fun w => P w /\ pending w) ->
  triple Q P (transfer_to_human reason env) (fun w => P w /\ pending w).
Proof.
  intros HP Hset Hc.
  assert (HS : appendable (fun w => P w /\ pending w)).
  { intros w e [H1 H2]. split; [by apply HP | done]. }
  unfold transfer_to_human.
  eapply triple_bind_total with (R := P); [apply returns_modify | kept |].
  intros _.
  eapply triple_bind_total with (R := fun w => P w /\ pending w);
    [apply returns_modify | |].
  { intros w Hw. split; [split; [by apply Hset | done] | by apply grows_same_trace]. }
  intros _.
  pose proof (triple_extract_transcript (fun w => P w /\ pending w)) as HT.
  apply triple_bind; [kept|]. intros w0.
  apply triple_bind; [kept|]. intros _.
  apply triple_bind; [by apply HT|]. intros t.
  kept.
Qed.

End Handlers.

(** ** Suspension points *)

Section Suspension.
Import agent.

Lemma callbacks_keep_true : callbacks_keep (fun _ => True) (fun _ => True).
Proof.
  intros e w _. split; [done|].
  destruct (callback_cases e w) as [->|[(t & new & -> & _)|(id & i & o & Hp & ->)]].
  - apply grows_refl.
  - by apply (grows_any _ _ new).
  - destruct (trace_joined id i o w) as (new & Hn & _). by apply (grows_any _ _ new).
Qed.

Lemma suspend_keeps_invariant :
  triple (fun _ => True) handoff_invariant suspend handoff_invariant.
Proof.
  apply triple_suspend; [apply stable_handoff_invariant | apply callbacks_keep_invariant].
Qed.

Lemma suspend_keeps_pending :
  triple (fun e => e <> ignored_log) (fun w => True /\ pending w) suspend
         (fun w => True /\ pending w).
Proof.
  apply triple_suspend.
  - apply stable_and; [apply stable_true | apply stable_pending].
  - intros e w [_ Hw]. destruct (callbacks_keep_pending e w Hw). auto.
Qed.

Lemma triple_any_effect (Q : effect -> Prop) P R {A} (m : M World A) :
  triple Q P m R -> triple (fun _ => True) P m R.
Proof.
  intros H w Hw. destruct (H w Hw) as [H1 (new & H2 & _)].
  split; [done|]. by apply (grows_any _ _ new).
Qed.

(** Whatever arrives meanwhile, [transfer_to_human] ends with the flag set,
    and no join that was handled meanwhile found it cleared. *)
Lemma transfer_to_human_sets_flag reason env w :
  pending (snd (transfer_to_human reason env w))
  /\ grows (fun e => e <> ignored_log) w (snd (transfer_to_human reason env w)).
Proof.
  destruct (triple_transfer_to_human (fun e => e <> ignored_log) (fun e H => H)
              (fun _ => True) reason env) with (w := w) as [[_ H1] H2]; try done.
  apply suspend_keeps_pending.
Qed.

(** A tool handler runs on the arrivals of its event and leaves no inbox. *)
Lemma step_tool (P : World -> Prop) {A} (m : M World A) arrivals w :
  stable P -> triple (fun _ => True) P m P ->
  P w -> P (set_inbox [] (snd (m (set_inbox arrivals w)))).
Proof.
  intros HP Hm Hw.
  apply (HP (snd (m (set_inbox arrivals w)))); [done | done|].
  apply Hm. by apply (HP w).
Qed.

Lemma transfer_to_human_keeps (P : World -> Prop) reason env :
  stable P -> (forall w, pending w -> P w) ->
  triple (fun _ => True) P (transfer_to_human reason env) P.
Proof.
  intros HP Hpend w _. destruct (transfer_to_human_sets_flag reason env w) as [H1 H2].
  split; [by apply Hpend|]. destruct H2 as (new & H2 & _). by apply (grows_any _ _ new).
Qed.

Lemma step_keeps_invariant ev w : handoff_invariant w -> handoff_invariant (step ev w).
Proof.
  intros Hw. destruct ev as [platform link response arrivals|reason env arrivals|e]; simpl.
  - apply (step_tool handoff_invariant); [apply stable_handoff_invariant | | done].
    apply triple_send_link; [done | | apply suspend_keeps_invariant].
    apply stable_appendable, stable_handoff_invariant.
  - apply (step_tool handoff_invariant); [apply stable_handoff_invariant | | done].
    apply transfer_to_human_keeps; [apply stable_handoff_invariant|].
    apply pending_invariant.
  - by apply callbacks_keep_invariant.
Qed.

Lemma step_keeps_pending ev w : pending w -> pending (step ev w).
Proof.
  intros Hw. destruct ev as [platform link response arrivals|reason env arrivals|e]; simpl.
  - apply (step_tool pending); [apply stable_pending | | done].
    apply triple_send_link; [done | apply stable_appendable, stable_pending|].
    apply triple_suspend; [apply stable_pending|].
    eapply callbacks_keep_weaken; [|apply callbacks_keep_pending]. done.
  - apply (step_tool pending); [apply stable_pending | | done].
    by apply transfer_to_human_keeps; [apply stable_pending|].
  - by apply callbacks_keep_pending.
Qed.

Lemma run_keeps (P : World -> Prop) evs :
  (forall ev w, P w -> P (step ev w)) -> forall w, P w -> P (run evs w).
Proof.
  intros Hstep. unfold run.
  induction evs as [|ev evs IH]; intros w Hw; simpl; [done|].
  apply IH. by apply Hstep.
Qed.

End Suspension.

(** ** The claims about the hand-off state machine *)

Section HandoffClaims.
Import agent.

(** C1.  In every state a call can reach, through any sequence of tool
    invocations, joins and disconnects (and whatever joins arrive while a tool
    handler is suspended), the AI is muted in some direction only if the
    hand-off flag is set: [audio_owner = human] implies
    [handoff_requested = true]. *)
Theorem audio_owner_human_implies_handoff_requested :
  forall order_context call_id firebase room getenv evs,
    let w := run evs (started (init order_context call_id firebase room) getenv) in
    handoff_invariant w
    /\ (audio_owner w = owner_human -> handoff_requested w = true).
Proof.
  intros oc cid fb rm env evs w.
  assert (Hinv : handoff_invariant w).
  { apply run_keeps; [apply step_keeps_invariant|].
    intros [H|H]; discriminate. }
  split; [exact Hinv|].
  intros Hown. apply Hinv. revert Hown. unfold audio_owner.
  destruct (input_audio_enabled (session w)), (output_audio_enabled (session w));
    simpl; auto; discriminate.
Qed.

Lemma set_handoff_pending_again w :
  pending w -> memory (snd (set_handoff_pending true w)) = memory w.
Proof.
  unfold pending, handoff_requested, memory. simpl.
  destruct w as [[oc cid fb rm p] s t u tr i]; simpl. by intros ->.
Qed.

Lemma set_handoff_pending_self w :
  pending w -> self (snd (set_handoff_pending true w)) = self w.
Proof.
  unfold pending, handoff_requested. simpl.
  destruct w as [[oc cid fb rm p] s t u tr i]; simpl. by intros ->.
Qed.

(** C2.  After an invocation of [transfer_to_human] the flag is set; no later
    event clears it; a further invocation leaves the agent object as it was,
    whatever arrives meanwhile; and with no room event arriving meanwhile it
    leaves everything that is kept in memory for the call as it was. *)
Theorem handoff_requested_set_once_never_cleared :
  forall w reason env arrivals,
    let w1 := step (tool_transfer_to_human reason env arrivals) w in
    handoff_requested w1 = true
    /\ (forall evs, handoff_requested (run evs w1) = true)
    /\ (forall reason' env' arrivals',
          self (step (tool_transfer_to_human reason' env' arrivals') w1) = self w1)
    /\ (forall reason' env',
          memory (step (tool_transfer_to_human reason' env' []) w1) = memory w1).
Proof.
  intros w reason env arrivals w1.
  assert (H1 : pending w1).
  { apply (stable_pending (snd (transfer_to_human reason env (set_inbox arrivals w))));
      [done | done|]. apply transfer_to_human_sets_flag. }
  split; [exact H1|]. split; [|split].
  - intros evs. apply (run_keeps pending); [apply step_keeps_pending | exact H1].
  - intros reason' env' arrivals'. simpl.
    set (P := fun w' : World => self w' = self w1).
    assert (HP : stable P) by (intros w2 w3 Hs _ H; unfold P; by rewrite <- Hs).
    destruct (triple_transfer_to_human (fun _ => True) (fun _ _ => I) P reason' env')
      with (w := set_inbox arrivals' w1) as [[Hs _] _]; [| | |done|exact Hs].
    + by apply stable_appendable.
    + intros w' Hs. unfold P in *. rewrite <- Hs.
      apply set_handoff_pending_self.
      unfold pending, handoff_requested. rewrite Hs. exact H1.
    + apply triple_suspend; [apply stable_and; [done | apply stable_pending]|].
      apply callbacks_keep_and; [apply callbacks_keep_self|].
      eapply callbacks_keep_weaken; [|apply callbacks_keep_pending]. done.
  - intros reason' env'. simpl.
    set (P := fun w' : World => memory w' = memory w1 /\ inbox w' = []).
    destruct (triple_transfer_to_human (fun _ => True) (fun _ _ => I) P reason' env')
      with (w := set_inbox [] w1) as [[[Hm _] _] _].
    + intros w' e [Hm Hi]. by split.
    + intros w' [Hm Hi]. split; [|exact Hi].
      rewrite <- Hm. apply set_handoff_pending_again.
      unfold pending, handoff_requested in *.
      unfold memory in Hm. by injection Hm as -> _ _.
    + intros w' [[Hm Hi] Hp]. unfold suspend, modify; simpl. rewrite Hi.
      split; [done | apply grows_refl].
    + by split.
    + exact Hm.
Qed.

End HandoffClaims.

(** ** A join that arrives while [transfer_to_human] is suspended *)

(** Discharges [returns m] for a handler built from total steps and
    [try ... except] blocks whose handlers are total. *)
Ltac total :=
  repeat first
    [ apply returns_ret | apply returns_get | apply returns_modify
    | apply returns_try_except | apply returns_bind
    | match goal with
      | |- forall _, _ => intro
      | |- returns (match ?x with _ => _ end) => destruct x
      end ].

Section JoinWhileSuspended.
Import agent.

Lemma returns_logger lvl msg : returns (logger lvl msg).
Proof. apply returns_modify. Qed.

Lemma returns_extract_transcript h : returns (extract_transcript h).
Proof. unfold extract_transcript. destruct h; total. Qed.

Lemma foldl_callbacks_keep Q P arrived :
  callbacks_keep Q P -> forall w, P w ->
  P (foldl (fun w e => callback e w) w arrived)
  /\ grows Q w (foldl (fun w e => callback e w) w arrived).
Proof.
  intros Hc. induction arrived as [|e arrived IH]; intros w Hw; simpl.
  - split; [done | apply grows_refl].
  - destruct (Hc e w Hw) as [H1 H2]. destruct (IH _ H1). eauto using grows_trans.
Qed.

Lemma callbacks_keep_pending_muted :
  callbacks_keep (fun _ => True) (fun w => pending w /\ muted w).
Proof.
  apply callbacks_keep_and; [|apply callbacks_keep_muted].
  eapply callbacks_keep_weaken; [|apply callbacks_keep_pending]. done.
Qed.

Variables (identity : string) (arrived : list room_event)
  (later : list (list room_event)).
Hypothesis Hidentity : String.prefix "human_operator" identity = true.
Hypothesis Harrived : participant_connected identity None None ∈ arrived.

(** Before the first suspension point the join is still to come; after it
    the AI is muted. *)
Let waiting (w : World) : Prop :=
  pending w /\ (inbox w = arrived :: later \/ muted w).
Let taken (w : World) : Prop := pending w /\ muted w.

Lemma foldl_callbacks_mutes l :
  participant_connected identity None None ∈ l ->
  forall w, pending w ->
    taken (foldl (fun w e => callback e w) w l)
    /\ grows (fun _ => True) w (foldl (fun w e => callback e w) w l).
Proof.
  induction l as [|e l IH]; intros Hin w Hw; [by apply elem_of_nil in Hin|].
  apply elem_of_cons in Hin as [Heq|Hin]; simpl.
  - subst e. simpl. rewrite on_participant_connected_handoff by done. simpl.
    destruct (foldl_callbacks_keep _ _ l callbacks_keep_pending_muted
                (joined identity None None w)) as [H1 H2].
    { split; [exact Hw | done]. }
    split; [exact H1|]. eapply grows_trans; [|exact H2].
    destruct (trace_joined identity None None w) as (new & Hn & _).
    by apply (grows_any _ _ new).
  - destruct (callbacks_keep_pending e w Hw) as [H1 (new & H2 & _)].
    destruct (IH Hin _ H1) as [H3 H4]. split; [exact H3|].
    eapply grows_trans; [|exact H4]. by apply (grows_any _ _ new).
Qed.

Lemma suspend_taken : triple (fun _ => True) taken suspend taken.
Proof.
  apply triple_suspend; [|apply callbacks_keep_pending_muted].
  apply stable_and; [apply stable_pending | apply stable_muted].
Qed.

Lemma suspend_takes : triple (fun _ => True) waiting suspend taken.
Proof.
  intros w [Hp [Hi|Hm]]; [|by apply suspend_taken].
  unfold suspend, modify; simpl. rewrite Hi.
  destruct (foldl_callbacks_mutes arrived Harrived (set_inbox later w)) as [H1 H2];
    [done|].
  split; [exact H1|]. eapply grows_trans; [|exact H2]. by apply grows_same_trace.
Qed.

Lemma taken_waiting w : taken w -> waiting w.
Proof. intros [H1 H2]. split; [done | by right]. Qed.

Lemma suspend_waiting : triple (fun _ => True) waiting suspend waiting.
Proof. eapply triple_weaken; [| |apply suspend_takes]; auto using taken_waiting. Qed.

Lemma appendable_waiting : appendable waiting.
Proof. intros w e H. exact H. Qed.

Lemma appendable_taken : appendable taken.
Proof. intros w e H. exact H. Qed.

Lemma client_post_takes url json timeout_s response :
  triple (fun _ => True) waiting (client_post url json timeout_s response) taken.
Proof.
  pose proof appendable_waiting. pose proof appendable_taken.
  pose proof suspend_taken. unfold client_post.
  eapply triple_bind_total with (R := waiting); [apply returns_modify | kept |].
  intros _.
  eapply triple_bind_gen with (R := taken); [apply suspend_takes | done | kept].
Qed.

(** The registration with the dashboard is always awaited, so a join that
    arrives first is handled at the latest there. *)
Lemma transfer_to_human_takes reason env :
  triple (fun _ => True) (fun w => inbox w = arrived :: later)
         (transfer_to_human reason env) taken.
Proof.
  pose proof appendable_waiting as HA0. pose proof appendable_taken as HA1.
  pose proof suspend_waiting as HS0. pose proof suspend_taken as HS1.
  unfold transfer_to_human.
  eapply triple_bind_total with (R := fun w => inbox w = arrived :: later);
    [apply returns_modify | |].
  { apply triple_logger; [|done]. intros w e H. exact H. }
  intros ?.
  eapply triple_bind_total with (R := waiting); [apply returns_modify | |].
  { apply triple_silent; [|done]. intros w Hi. split; [done | by left]. }
  intros ?.
  eapply triple_bind_total with (R := waiting); [apply returns_get | kept |].
  intros w0.
  eapply triple_bind_total with (R := waiting).
  { destruct (firebase (self w0)), (call_id (self w0)) as [c|]; total. }
  { kept. }
  intros ?.
  eapply triple_bind_total with (R := waiting);
    [apply returns_extract_transcript | by apply triple_extract_transcript |].
  intros transcript.
  eapply triple_bind_gen with (R := taken); [|done|kept].
  eapply triple_try_except_gen with (R := taken); [|done|kept].
  eapply triple_bind_total with (R := waiting); [apply returns_get | kept |].
  intros w1.
  eapply triple_bind_gen with (R := taken); [apply client_post_takes | done | kept].
Qed.

End JoinWhileSuspended.

Section Ordering.
Import agent.

(** C3.  [transfer_to_human] sets the flag before its first suspension point:
    whatever room events arrive while it awaits its side effects, no join
    handled meanwhile takes the branch for a missing hand-off request, the
    flag is set when the handler ends, and a human operator whose join
    arrives at the first suspension point (with [set_audio_enabled] working)
    finds the flag set and mutes the AI. *)
Theorem handoff_flag_set_before_side_effects :
  forall w reason env,
    let w' := snd (transfer_to_human reason env w) in
    handoff_requested w' = true
    /\ grows (fun e => e <> ignored_log) w w'
    /\ (forall identity arrived later,
          inbox w = arrived :: later ->
          participant_connected identity None None ∈ arrived ->
          String.prefix "human_operator" identity = true ->
          muted w').
Proof.
  intros w reason env w'.
  destruct (transfer_to_human_sets_flag reason env w) as [H1 H2].
  split; [exact H1|]. split; [exact H2|].
  intros identity arrived later Hi Hin Hpre.
  by destruct (transfer_to_human_takes identity arrived later Hpre Hin reason env w Hi)
    as [[_ Hm] _].
Qed.

End Ordering.

Section JoinClaims.
Import agent.

(** [str.startswith]: the identity is the prefix followed by anything. *)
Lemma prefix_app p s :
  String.prefix p s = true <-> exists rest, s = p +:+ rest.
Proof.
  revert s. induction p as [|c p IH]; intros s.
  - split; [intros _; by exists s | intros _; by destruct s].
  - destruct s as [|c' s]; simpl.
    + split; [discriminate | intros [rest Hr]; discriminate].
    + destruct (ascii_dec c c') as [->|Hne].
      * rewrite IH. split; intros [rest Hr]; exists rest.
        -- by rewrite Hr.
        -- by injection Hr.
      * split; [discriminate|]. intros [rest Hr]. injection Hr as Hc _. congruence.
Qed.

(** C4.  A join by a human operator while no hand-off was requested changes
    nothing that is kept in memory for the call (the flag, the audio switches
    of the session, the queued tasks), queues no status update, and emits two
    log lines and nothing else. *)
Theorem join_without_handoff_only_logs :
  forall identity input_fails output_fails w,
    String.prefix "human_operator" identity = true ->
    handoff_requested w = false ->
    let r := on_participant_connected identity input_fails output_fails w in
    fst r = Ok tt
    /\ memory (snd r) = memory w
    /\ audio_owner (snd r) = audio_owner w
    /\ trace (snd r)
       = (trace w ++ [Log INFO ("Human operator joined: " +:+ identity);
                      Log INFO "Human operator joined but no handoff was requested"])%list.
Proof.
  intros identity i o w Hpre Hp r. subst r.
  rewrite on_participant_connected_ignored by done. done.
Qed.

Lemma join_without_handoff_only_logs_witness :
  let w := started (init None (Some "mock-call-room-1") None (Some "room-1")) None in
  memory (snd (on_participant_connected "human_operator_7" None None w)) = memory w
  /\ trace (snd (on_participant_connected "human_operator_7" None None w))
     = [Log INFO "Human operator joined: human_operator_7";
        Log INFO "Human operator joined but no handoff was requested"].
Proof.
  intros w.
  destruct (join_without_handoff_only_logs "human_operator_7" None None w
              eq_refl eq_refl) as (_ & Hm & _ & Ht).
  split; [exact Hm | exact Ht].
Defined.

(** C10.  [on_participant_connected] takes the human-operator path exactly
    when the identity starts with [human_operator]: it then logs the join;
    otherwise it returns at once and the world is what it was, whatever the
    flag is. *)
Theorem human_operator_path_iff_prefix :
  (forall identity,
     String.prefix "human_operator" identity = true
     <-> exists rest, identity = "human_operator" +:+ rest)
  /\ (forall identity i o w,
        String.prefix "human_operator" identity = true ->
        exists new,
          trace (snd (on_participant_connected identity i o w))
          = (trace w ++ Log INFO ("Human operator joined: " +:+ identity) :: new)%list)
  /\ (forall identity i o w,
        String.prefix "human_operator" identity = false ->
        on_participant_connected identity i o w = (Ok tt, w))
  /\ String.prefix "human_operator" "human_operator_42" = true
  /\ String.prefix "human_operator" "human" = false.
Proof.
  split; [intros identity; apply prefix_app|].
  split; [|split; [apply on_participant_connected_other | done]].
  intros identity i o w Hpre.
  destruct (_handoff_pending (self w)) eqn:Hp.
  - rewrite on_participant_connected_handoff by done.
    unfold joined. destruct i, o; simpl; eexists; reflexivity.
  - rewrite on_participant_connected_ignored by done. simpl.
    eexists; reflexivity.
Qed.

End JoinClaims.

Section SendLink.
Import agent.

(** C5.  [send_link] never raises: a 2xx response gives the confirmation that
    asks the model to check with the customer; an [httpx.HTTPError] (a
    non-2xx status, a timeout, a transport error) and any other exception
    give one of the two texts that offer the link verbally. *)
Theorem send_link_never_raises :
  forall platform link response w,
    fst (send_link platform link response w)
    = Ok match response with
         | inr status_code =>
             if (200 <=? status_code)%Z && (status_code <=? 299)%Z
             then "Link successfully sent via " +:+ platform
                  +:+ ". Ask if they received it."
             else "Sorry, I couldn't send the link via " +:+ platform
                  +:+ " right now. Please try again later or I can give you the link verbally."
         | inl e =>
             if isinstance_HTTPError e
             then "Sorry, I couldn't send the link via " +:+ platform
                  +:+ " right now. Please try again later or I can give you the link verbally."
             else "There was an issue sending the link. Would you like me to read it to you instead?"
         end.
Proof.
  intros platform link response w.
  unfold send_link, logger, emit, client_post, suspend, raise_for_status,
    try_except, bind, modify, get, ret, raise.
  destruct response as [e|status_code]; simpl.
  - destruct (isinstance_HTTPError e); reflexivity.
  - destruct ((200 <=? status_code)%Z && (status_code <=? 299)%Z); reflexivity.
Qed.

End SendLink.

(** ** The side effects of [transfer_to_human] *)

Section Yields.
Context {St : Type}.

Lemma yields_ret {A} (v : A) : yields (St:=St) (ret v) v.
Proof. done. Qed.

Lemma yields_bind {A B} (m : M St A) (f : A -> M St B) v :
  returns m -> (forall a, yields (f a) v) -> yields (bind m f) v.
Proof.
  intros Hm Hf s. unfold bind. destruct (Hm s) as [a Ha].
  destruct (m s) as [[a'|e] s']; simpl in Ha; [|discriminate].
  apply Hf.
Qed.

End Yields.

Section Attempts.
Import agent.
Variables (a : RozetkaSalesAgent) (n : nat).

(** What every step of the handler keeps: the attributes of the agent, and a
    trace at least as long as when the handler started. *)
Let kept_by_all (w : World) : Prop := same_agent a w /\ n <= length (trace w).

(** The effect [e] was emitted since the handler started. *)
Let attempted (e : effect) (w : World) : Prop :=
  kept_by_all w /\ e ∈ emitted_since n w.

Lemma grows_longer Q w w' : grows Q w w' -> length (trace w) <= length (trace w').
Proof. intros (new & -> & _). rewrite length_app. lia. Qed.

Lemma grows_emitted Q e w w' :
  n <= length (trace w) -> grows Q w w' ->
  e ∈ emitted_since n w -> e ∈ emitted_since n w'.
Proof.
  unfold emitted_since. intros Hn (new & -> & _) He.
  rewrite drop_app_le by done. apply elem_of_app. by left.
Qed.

Lemma appendable_kept_by_all : appendable kept_by_all.
Proof.
  intros w e [H1 H2]. split; [exact H1|]. simpl. rewrite length_app. lia.
Qed.

Lemma appendable_attempted e : appendable (attempted e).
Proof.
  intros w e' [H1 H2]. split; [by apply appendable_kept_by_all|].
  destruct H1 as [_ Hn]. unfold emitted_since in *. simpl.
  rewrite drop_app_le by done. apply elem_of_app. by left.
Qed.

Lemma suspend_kept_by_all : triple (fun _ => True) kept_by_all suspend kept_by_all.
Proof.
  intros w [H1 H2].
  destruct (triple_suspend (fun _ => True) (same_agent a) (stable_same_agent a)
              (callbacks_keep_same_agent a) w H1) as [H3 H4].
  split; [|exact H4]. split; [exact H3|].
  apply grows_longer in H4. lia.
Qed.

Lemma suspend_attempted e :
  triple (fun _ => True) (attempted e) suspend (attempted e).
Proof.
  intros w [H1 H2]. destruct (suspend_kept_by_all w H1) as [H3 H4].
  split; [|exact H4]. split; [exact H3|].
  destruct H1 as [_ Hn]. by apply (grows_emitted (fun _ => True) e w).
Qed.

Lemma emit_attempts e : triple (fun _ => True) kept_by_all (emit e) (attempted e).
Proof.
  intros w Hw. split.
  - split; [by apply appendable_kept_by_all|].
    destruct Hw as [_ Hn]. unfold emitted_since. simpl.
    rewrite drop_app_le by done. apply elem_of_app. right. by apply list_elem_of_singleton.
  - by apply (grows_any _ _ [e]).
Qed.

Lemma set_handoff_pending_kept_by_all b :
  triple (fun _ => True) kept_by_all (set_handoff_pending b) kept_by_all.
Proof. apply triple_silent; [|done]. intros w H. exact H. Qed.

Lemma await_attempts call fails :
  triple (fun _ => True) kept_by_all (await call fails) (attempted call).
Proof.
  pose proof (appendable_attempted call). pose proof (suspend_attempted call).
  unfold await.
  eapply triple_bind_total; [apply returns_modify | apply emit_attempts | kept].
Qed.

Lemma client_post_attempts url json timeout_s response :
  triple (fun _ => True) kept_by_all (client_post url json timeout_s response)
         (attempted (HttpPost url json timeout_s)).
Proof.
  pose proof (appendable_attempted (HttpPost url json timeout_s)).
  pose proof (suspend_attempted (HttpPost url json timeout_s)).
  unfold client_post.
  eapply triple_bind_total; [apply returns_modify | apply emit_attempts | kept].
Qed.

(** The body of the registration request (lines 184-192). *)
Let register_json (reason : string) (transcript : list pyval) : list (string * pyval) :=
  [("call_id", pyval_of_call_id (call_id a));
   ("room_name", PyStr (default "unknown" (room a)));
   ("phone_number", dict_get (order_context a) "phone" (PyStr "Unknown"));
   ("customer_name", dict_get (order_context a) "customer_name" (PyStr "Customer"));
   ("product_name", dict_get (order_context a) "product_name" (PyStr "Unknown"));
   ("reason", PyStr reason);
   ("transcript", PyList transcript)].

Ltac start_transfer :=
  pose proof appendable_kept_by_all; pose proof suspend_kept_by_all;
  unfold transfer_to_human;
  eapply triple_bind_total with (R := kept_by_all); [apply returns_modify | kept |];
  intros _;
  eapply triple_bind_total with (R := kept_by_all);
    [apply returns_modify | apply set_handoff_pending_kept_by_all |];
  intros _.

Lemma transfer_attempts_persist reason env fb c :
  firebase a = Some fb -> call_id a = Some c -> str_truthy c = true ->
  triple (fun _ => True) kept_by_all (transfer_to_human reason env)
         (attempted (RequestHandoff c reason)).
Proof.
  intros Hfb Hcid Hc.
  pose proof (appendable_attempted (RequestHandoff c reason)).
  pose proof (suspend_attempted (RequestHandoff c reason)).
  start_transfer.
  apply triple_bind_get. intros w0 [(_ & Hcid0 & Hfb0 & _) _].
  rewrite Hfb0, Hcid0, Hfb, Hcid, Hc.
  eapply triple_bind_gen with (R := attempted (RequestHandoff c reason)); [|done|].
  - eapply triple_try_except_gen; [apply await_attempts | done | kept].
  - intros _.
    apply triple_bind; [by apply triple_extract_transcript|]. kept.
Qed.

Lemma transfer_attempts_register reason env :
  triple (fun _ => True) kept_by_all (transfer_to_human reason env)
         (fun w => exists transcript,
            attempted (HttpPost "http://localhost:3000/api/handoffs/register"
                         (register_json reason transcript) 5) w).
Proof.
  start_transfer.
  eapply triple_bind_total with (R := kept_by_all); [apply returns_get | kept |].
  intros w0.
  eapply triple_bind_total with (R := kept_by_all).
  { destruct (firebase (self w0)), (call_id (self w0)) as [c|]; total. }
  { kept. }
  intros _.
  eapply triple_bind_total with (R := kept_by_all);
    [apply returns_extract_transcript | by apply triple_extract_transcript |].
  intros transcript.
  set (e := HttpPost "http://localhost:3000/api/handoffs/register"
              (register_json reason transcript) 5).
  pose proof (appendable_attempted e). pose proof (suspend_attempted e).
  eapply triple_weaken with (P := kept_by_all) (R := attempted e);
    [done | intros w Hw; by exists transcript |].
  eapply triple_bind_gen with (R := attempted e); [|done|kept].
  eapply triple_try_except_gen with (R := attempted e); [|done|kept].
  apply triple_bind_get. intros w1 [(Hoc & Hcid & _ & Hrm) _].
  rewrite Hoc, Hcid, Hrm.
  eapply triple_bind_gen with (R := attempted e);
    [apply client_post_attempts | done | kept].
Qed.

Lemma transfer_attempts_publish reason env r :
  room a = Some r ->
  triple (fun _ => True) kept_by_all (transfer_to_human reason env)
         (attempted (PublishData (handoff_payload (call_id a) reason) true)).
Proof.
  intros Hr.
  set (e := PublishData (handoff_payload (call_id a) reason) true).
  pose proof (appendable_attempted e). pose proof (suspend_attempted e).
  start_transfer.
  eapply triple_bind_total with (R := kept_by_all); [apply returns_get | kept |].
  intros w0.
  eapply triple_bind_total with (R := kept_by_all).
  { destruct (firebase (self w0)), (call_id (self w0)) as [c|]; total. }
  { kept. }
  intros _.
  eapply triple_bind_total with (R := kept_by_all);
    [apply returns_extract_transcript | by apply triple_extract_transcript |].
  intros transcript.
  eapply triple_bind_total with (R := kept_by_all); [total | kept |].
  intros _.
  eapply triple_bind_gen with (R := attempted e); [|done|kept].
  eapply triple_try_except_gen with (R := attempted e); [|done|kept].
  apply triple_bind_get. intros w1 [(_ & Hcid & _ & Hrm) _].
  rewrite Hcid, Hrm, Hr. apply await_attempts.
Qed.

Lemma yields_transfer_to_human reason env :
  yields (transfer_to_human reason env) transfer_announcement.
Proof.
  unfold transfer_to_human.
  repeat (apply yields_bind;
          [first [apply returns_extract_transcript | total] | intros ?]).
  apply yields_ret.
Qed.

End Attempts.

Section TransferClaim.
Import agent.

(** C7.  [transfer_to_human] returns the same announcement whatever its side
    effects do, and each of the three is attempted whatever the others do:
    the hand-off is written to the call record when the agent has a record
    store and a call id, the registration with the dashboard is always
    posted, and the notification is published when the agent has a room. *)
Theorem transfer_to_human_best_effort :
  forall w reason env,
    let r := transfer_to_human reason env w in
    let new := emitted_since (length (trace w)) (snd r) in
    fst r = Ok transfer_announcement
    /\ (forall fb c, firebase (self w) = Some fb -> call_id (self w) = Some c ->
                     c <> "" -> RequestHandoff c reason ∈ new)
    /\ (exists json, HttpPost "http://localhost:3000/api/handoffs/register" json 5 ∈ new)
    /\ (forall name, room (self w) = Some name ->
                     PublishData (handoff_payload (call_id (self w)) reason) true ∈ new).
Proof.
  intros w reason env r new. subst r new.
  assert (Hw : same_agent (self w) w /\ length (trace w) <= length (trace w))
    by (split; [done | lia]).
  split; [apply yields_transfer_to_human|]. split; [|split].
  - intros fb c Hfb Hcid Hc.
    assert (Ht : str_truthy c = true).
    { unfold str_truthy. destruct (String.eqb_spec c ""); [done | reflexivity]. }
    by destruct (transfer_attempts_persist (self w) (length (trace w)) reason env
                   fb c Hfb Hcid Ht w Hw) as [[_ He] _].
  - destruct (transfer_attempts_register (self w) (length (trace w)) reason env w Hw)
      as [(transcript & _ & He) _].
    eexists. exact He.
  - intros name Hr.
    by destruct (transfer_attempts_publish (self w) (length (trace w)) reason env
                   name Hr w Hw) as [[_ He] _].
Qed.

End TransferClaim.

(** ** The order context and the call record *)

Section Firebase.
Import firebase_service.

Lemma dom_order_record doc : dom (order_record doc) = order_keys.
Proof.
  unfold order_record, order_keys. rewrite !dom_insert_L, dom_empty_L. set_solver.
Qed.

Lemma dom_mock_order : dom mock_order = order_keys.
Proof.
  unfold mock_order, order_keys. rewrite !dom_insert_L, dom_empty_L. set_solver.
Qed.

Lemma order_keys_nonempty (m : gmap string pyval) : dom m = order_keys -> m <> ∅.
Proof.
  intros Hd ->. rewrite dom_empty_L in Hd. unfold order_keys in Hd. set_solver.
Qed.

(** [get_order_context], outcome by outcome. *)
Lemma get_order_context_cases self phone fails s :
  get_order_context self phone fails s =
    match _use_firebase self, _db s, fails with
    | true, Some db, None =>
        match where_phone phone (orders db) with
        | doc :: _ => (Ok (order_record doc), s)
        | [] => (Ok mock_order, s)
        end
    | true, Some db, Some e =>
        (Ok mock_order,
         {| _db := _db s;
            log := log s ++ [LogText ERROR ("Error fetching order: " +:+ str_exn e)] |})
    | _, _, _ => (Ok mock_order, s)
    end.
Proof.
  unfold get_order_context, bind, get, try_except, stream, outcome, ret, raise,
    logger, modify.
  destruct s as [[db|] lg], (_use_firebase self), fails as [e|]; simpl; try reflexivity.
  destruct (where_phone phone (orders db)) as [|d [|d' l]]; reflexivity.
Qed.

(** C6.  [get_order_context] never raises; what it returns has exactly the
    six keys of an order context; and when the store is not configured, the
    query raises, or no order matches the caller, it is the default record
    (Valued Customer, Samsung Galaxy S24, Premium Protection Plan at 1499). *)
Theorem get_order_context_never_fails :
  forall self phone fails s,
    exists ctx,
      fst (get_order_context self phone fails s) = Ok ctx
      /\ dom ctx = order_keys
      /\ ctx <> ∅
      /\ ((_use_firebase self = false \/ _db s = None \/ is_Some fails
           \/ (forall db, _db s = Some db -> where_phone phone (orders db) = []))
          -> ctx = mock_order)
      /\ mock_order !! "customer_name" = Some (PyStr "Valued Customer")
      /\ mock_order !! "product_name" = Some (PyStr "Samsung Galaxy S24")
      /\ mock_order !! "upsell_product" = Some (PyStr "Premium Protection Plan")
      /\ mock_order !! "upsell_price" = Some (PyInt 1499).
Proof.
  intros self phone fails s. rewrite get_order_context_cases.
  assert (Hmock : forall s' : state, exists ctx,
             fst (Ok mock_order, s') = Ok ctx /\ dom ctx = order_keys /\ ctx <> ∅
             /\ (_use_firebase self = false \/ _db s = None \/ is_Some fails
                 \/ (forall db, _db s = Some db -> where_phone phone (orders db) = [])
                 -> ctx = mock_order)
             /\ mock_order !! "customer_name" = Some (PyStr "Valued Customer")
             /\ mock_order !! "product_name" = Some (PyStr "Samsung Galaxy S24")
             /\ mock_order !! "upsell_product" = Some (PyStr "Premium Protection Plan")
             /\ mock_order !! "upsell_price" = Some (PyInt 1499)).
  { intros s'. exists mock_order.
    repeat split; auto using dom_mock_order, order_keys_nonempty. }
  destruct (_use_firebase self) eqn:Hu, (_db s) as [db|] eqn:Hdb, fails as [e|] eqn:Hf;
    try apply Hmock.
  destruct (where_phone phone (orders db)) as [|doc rest] eqn:Hw; [apply Hmock|].
  exists (order_record doc).
  repeat split; auto using dom_order_record, order_keys_nonempty.
  intros [H|[H|[H|H]]]; try discriminate.
  - destruct H as [x Hx]; discriminate.
  - specialize (H db eq_refl). congruence.
Qed.

(** [log_call_start], outcome by outcome. *)
Lemma log_call_start_cases self room_name phone ctx now env s :
  let data := call_data room_name phone ctx now in
  let mock e_log :=
    (Ok ("mock-call-" +:+ room_name),
     {| _db := _db s;
        log := log s ++ e_log ++ [LogDict INFO "[MOCK] Call started: " data] |}) in
  let failed e := [LogText ERROR ("Error logging call start: " +:+ str_exn e)] in
  log_call_start self room_name phone ctx now env s =
    match _use_firebase self, _db s with
    | true, Some db =>
        match document_outcome env, set_fails env with
        | inr id, None =>
            (Ok id,
             {| _db := Some {| orders := orders db; calls := <[id := data]> (calls db) |};
                log := log s |})
        | inr _, Some e => mock (failed e)
        | inl e, _ => mock (failed e)
        end
    | _, _ => mock []
    end.
Proof.
  unfold log_call_start, configured, document, doc_set, bind, get, try_except,
    outcome, ret, raise, logger, modify, set_db.
  destruct s as [[db|] lg], (_use_firebase self), env as [[e|id] [e'|]]; simpl;
    rewrite <- ?app_assoc; reflexivity.
Qed.

End Firebase.

Section CallRecord.
Import firebase_service.

(** C8, as amended.  With the store configured and both writes succeeding,
    [log_call_start] returns the identifier Firestore drew and stores the
    record under it; when Firestore draws identifiers that are not yet in the
    collection, two creations return different identifiers and add two
    records.  In mock mode nothing is stored and the identifier is
    [mock-call-] followed by the room name, so two creations return the same
    identifier exactly when the room is the same; a write that raises falls
    back to the same mock identifier. *)
Theorem log_call_start_identifiers :
  forall self s room1 phone1 ctx1 now1 env1 room2 phone2 ctx2 now2 env2,
    let data1 := call_data room1 phone1 ctx1 now1 in
    let data2 := call_data room2 phone2 ctx2 now2 in
    let r1 := log_call_start self room1 phone1 ctx1 now1 env1 s in
    let r2 := log_call_start self room2 phone2 ctx2 now2 env2 (snd r1) in
    (forall db id1 id2,
        _use_firebase self = true -> _db s = Some db ->
        document_outcome env1 = inr id1 -> set_fails env1 = None ->
        document_outcome env2 = inr id2 -> set_fails env2 = None ->
        calls db !! id1 = None -> <[id1 := data1]> (calls db) !! id2 = None ->
        fst r1 = Ok id1 /\ fst r2 = Ok id2 /\ id1 <> id2
        /\ _db (snd r2)
           = Some {| orders := orders db;
                     calls := <[id2 := data2]> (<[id1 := data1]> (calls db)) |}
        /\ size (<[id2 := data2]> (<[id1 := data1]> (calls db)))
           = S (S (size (calls db))))
    /\ ((_use_firebase self = false \/ _db s = None) ->
        fst r1 = Ok ("mock-call-" +:+ room1)
        /\ fst r2 = Ok ("mock-call-" +:+ room2)
        /\ _db (snd r2) = _db s
        /\ (fst r1 = fst r2 <-> room1 = room2))
    /\ ((is_Some (set_fails env1) \/ (exists e, document_outcome env1 = inl e)) ->
        fst r1 = Ok ("mock-call-" +:+ room1) /\ _db (snd r1) = _db s).
Proof.
  intros self s room1 phone1 ctx1 now1 env1 room2 phone2 ctx2 now2 env2
    data1 data2 r1 r2.
  subst r2 r1. rewrite !log_call_start_cases. cbv zeta. fold data1 data2.
  split; [|split].
  - intros db id1 id2 Hu Hdb Hd1 Hs1 Hd2 Hs2 Hf1 Hf2.
    rewrite Hu, Hdb, Hd1, Hs1. simpl. rewrite Hd2, Hs2. simpl.
    repeat split.
    + intros ->. by rewrite lookup_insert_eq in Hf2.
    + rewrite !map_size_insert_None by done. done.
  - intros Hmock.
    destruct (_use_firebase self) eqn:Hu, (_db s) as [db|] eqn:Hdb; simpl;
      try (destruct Hmock; discriminate); rewrite ?Hdb; simpl;
      (repeat split; [intros [= H]; exact H | by intros ->]).
  - intros Hfail.
    destruct (_use_firebase self), (_db s) as [db|] eqn:Hdb; simpl; try done.
    destruct (document_outcome env1) as [e|id] eqn:Hd; simpl; [done|].
    destruct (set_fails env1) as [e|] eqn:Hs; simpl; [done|].
    destruct Hfail as [[x Hx]|[e He]]; discriminate.
Qed.

Lemma log_call_start_identifiers_witness :
  let self := {| _use_firebase := true |} in
  let s := {| _db := Some {| orders := []; calls := ∅ |}; log := [] |} in
  let env1 := {| document_outcome := inr "Jx3kQ"; set_fails := None |} in
  let env2 := {| document_outcome := inr "p09Zt"; set_fails := None |} in
  let r1 := log_call_start self "room-1" "+380501234567" mock_order "t1" env1 s in
  let r2 := log_call_start self "room-1" "+380501234567" mock_order "t2" env2 (snd r1) in
  fst r1 = Ok "Jx3kQ" /\ fst r2 = Ok "p09Zt".
Proof.
  intros self s env1 env2 r1 r2.
  destruct (log_call_start_identifiers self s
              "room-1" "+380501234567" mock_order "t1" env1
              "room-1" "+380501234567" mock_order "t2" env2) as [H _].
  destruct (H {| orders := []; calls := ∅ |} "Jx3kQ" "p09Zt"
              eq_refl eq_refl eq_refl eq_refl eq_refl eq_refl eq_refl eq_refl)
    as (H1 & H2 & _).
  split; [exact H1 | exact H2].
Defined.

(** C8 as the specification words it fails in mock mode: two calls started
    in the same room get the same identifier, and no record is created. *)
Lemma log_call_start_mock_repeats_identifier :
  let self := {| _use_firebase := false |} in
  let s := {| _db := None; log := [] |} in
  let env := {| document_outcome := inr "unused"; set_fails := None |} in
  let r1 := log_call_start self "room-1" "+380501234567" mock_order
              "2026-01-01T10:00:00+00:00" env s in
  let r2 := log_call_start self "room-1" "+380501234567" mock_order
              "2026-01-01T10:05:00+00:00" env (snd r1) in
  fst r1 = Ok "mock-call-room-1"
  /\ fst r2 = fst r1
  /\ _db (snd r2) = None
  /\ ~ create_returns_fresh_ids.
Proof.
  cbv zeta. repeat split.
  intros H.
  apply (H {| _use_firebase := false |} {| _db := None; log := [] |}
           "room-1" "+380501234567" mock_order "2026-01-01T10:00:00+00:00"
           {| document_outcome := inr "unused"; set_fails := None |}
           "room-1" "+380501234567" mock_order "2026-01-01T10:05:00+00:00"
           {| document_outcome := inr "unused"; set_fails := None |}).
  reflexivity.
Qed.

End CallRecord.

Section Payload.
Import agent.

(** C9.  The packet pastes the reason between double quotes as it is.  A
    reason that contains a double quote gives a text that is not JSON; one
    that is crafted gives an object with other members; a trailing backslash
    swallows the closing quote.  A reason without such characters is encoded
    as the specification says. *)
Theorem handoff_payload_not_escaped :
  json.loads (handoff_payload (Some "call-1") ("say " +:+ dq +:+ "hi" +:+ dq)) = None
  /\ ~ payload_encodes "call-1" ("say " +:+ dq +:+ "hi" +:+ dq)
  /\ json.loads
       (handoff_payload (Some "call-1")
          ("x" +:+ dq +:+ "," +:+ dq +:+ "type" +:+ dq +:+ ":" +:+ dq +:+ "joke"))
     = Some [("type", "handoff"); ("call_id", "call-1"); ("reason", "x");
             ("type", "joke")]
  /\ json.loads (handoff_payload (Some "call-1") (String json.backslash "")) = None
  /\ payload_encodes "call-1" "customer requested manager".
Proof.
  repeat split; try (vm_compute; reflexivity).
  unfold payload_encodes. vm_compute. discriminate.
Qed.

End Payload.

(** * Further properties of the code *)

(** ** The record store: initialisation and updates *)

Section RecordStore.
Import firebase_service.

(** X1.  [_init_firebase] examines the environment once: started from a
    module that is not initialised, it marks it initialised, answers [true]
    exactly when it has set [_db], and a later call, whatever the environment
    has become, gives the same answer and changes nothing; so a service built
    then is in the same mode, and [self._use_firebase and _db] is
    [self._use_firebase]. *)
Theorem init_firebase_once :
  forall env1 env2 g,
    _initialized g = false -> _db (module g) = None ->
    let r1 := _init_firebase env1 g in
    let r2 := FirebaseService_init env2 (snd r1) in
    exists use,
      fst r1 = Ok use
      /\ _initialized (snd r1) = true
      /\ (use = true <-> is_Some (_db (module (snd r1))))
      /\ r2 = (Ok {| _use_firebase := use |}, snd r1)
      /\ configured {| _use_firebase := use |} (module (snd r1)) = use.
Proof.
  intros env1 env2 [[db lg] ini] Hi Hdb r1 r2. simpl in Hi, Hdb. subst ini db.
  subst r2 r1.
  unfold FirebaseService_init, _init_firebase, configured, init_logger, bind, get,
    modify, try_except, ret, raise, set_db. simpl.
  destruct (negb (str_truthy (default "" (creds_path env1)))
            || negb (path_exists env1 (default "" (creds_path env1)))); simpl.
  - exists false. repeat split; try done; try (by intros [x Hx]).
  - destruct (client_outcome env1) as [e|db]; simpl.
    + exists false. repeat split; try done; try (by intros [x Hx]).
    + exists true. repeat split; try done; try (by exists db).
Qed.

Lemma init_firebase_once_witness :
  let env1 := {| creds_path := Some "/run/key.json";
                 path_exists := fun _ => true;
                 client_outcome := inl (PyException "invalid certificate") |} in
  let env2 := {| creds_path := Some "/run/key.json";
                 path_exists := fun _ => true;
                 client_outcome := inr {| orders := []; calls := ∅ |} |} in
  fst (FirebaseService_init env2 (snd (_init_firebase env1 imported)))
  = Ok {| _use_firebase := false |}.
Proof.
  intros env1 env2.
  destruct (init_firebase_once env1 env2 imported eq_refl eq_refl)
    as (use & H1 & _ & _ & H2 & _).
  simpl in H1. injection H1 as <-. by rewrite H2.
Defined.

(** [update_call_status], outcome by outcome. *)
Lemma update_call_status_cases self id status extra fails s :
  let data := update_data status extra in
  let mock e_log :=
    (Ok tt,
     {| _db := _db s;
        log := log s ++ e_log
               ++ [LogDict INFO ("[MOCK] Call " +:+ id +:+ " updated: ") data] |}) in
  let failed e := [LogText ERROR ("Error updating call status: " +:+ str_exn e)] in
  update_call_status self id status extra fails s =
    match _use_firebase self, _db s with
    | true, Some db =>
        match fails, calls db !! id with
        | Some e, _ => mock (failed e)
        | None, Some old =>
            (Ok tt,
             {| _db := Some {| orders := orders db;
                               calls := <[id := data ∪ old]> (calls db) |};
                log := log s |})
        | None, None => mock (failed (PyException ("404 No document to update: " +:+ id)))
        end
    | _, _ => mock []
    end.
Proof.
  unfold update_call_status, configured, doc_update, bind, get, try_except,
    outcome, ret, raise, logger, modify, set_db.
  destruct s as [[db|] lg], (_use_firebase self), fails as [e|]; simpl;
    rewrite <- ?app_assoc; try reflexivity.
  destruct (calls db !! id) as [old|]; simpl; rewrite <- ?app_assoc; reflexivity.
Qed.

(** X2.  [update_call_status] never raises, never creates a call record,
    and leaves the orders and every other call record as they were; the
    record of the call itself changes only when the store is configured,
    the record exists and the write succeeds. *)
Theorem update_call_status_frame :
  forall self id status extra fails s,
    exists s',
      update_call_status self id status extra fails s = (Ok tt, s')
      /\ (_db s = None -> _db s' = None)
      /\ (forall db, _db s = Some db ->
            exists db',
              _db s' = Some db'
              /\ orders db' = orders db
              /\ dom (calls db') = dom (calls db)
              /\ (forall other, other <> id -> calls db' !! other = calls db !! other)
              /\ (calls db' !! id <> calls db !! id ->
                  _use_firebase self = true /\ fails = None
                  /\ exists old, calls db !! id = Some old
                                 /\ calls db' !! id = Some (update_data status extra ∪ old))).
Proof.
  intros self id status extra fails s. rewrite update_call_status_cases. cbv zeta.
  assert (Hsame : forall lg, exists s',
             (Ok tt, {| _db := _db s; log := lg |}) = (Ok tt, s')
             /\ (_db s = None -> _db s' = None)
             /\ (forall db, _db s = Some db ->
                   exists db',
                     _db s' = Some db'
                     /\ orders db' = orders db
                     /\ dom (calls db') = dom (calls db)
                     /\ (forall other, other <> id ->
                           calls db' !! other = calls db !! other)
                     /\ (calls db' !! id <> calls db !! id ->
                         _use_firebase self = true /\ fails = None
                         /\ exists old, calls db !! id = Some old
                              /\ calls db' !! id
                                 = Some (update_data status extra ∪ old)))).
  { intros lg. eexists. split; [reflexivity|]. simpl. split; [done|].
    intros db Hdb. exists db. repeat split; done. }
  destruct (_use_firebase self) eqn:Hu, (_db s) as [db|] eqn:Hdb; try apply Hsame.
  destruct fails as [e|]; [apply Hsame|].
  destruct (calls db !! id) as [old|] eqn:Hold; [|apply Hsame].
  eexists. split; [reflexivity|]. simpl. split; [done|].
  intros db0 [= <-]. eexists. split; [reflexivity|]. simpl.
  split; [done|]. split; [|split].
  - rewrite dom_insert_L. apply subseteq_union_1_L, singleton_subseteq_l.
    by apply elem_of_dom_2 in Hold.
  - intros other Hne. by rewrite lookup_insert_ne.
  - intros _. split; [done|]. split; [done|]. exists old.
    split; [done|]. by rewrite lookup_insert_eq.
Qed.

End RecordStore.

Section RecordLifecycle.
Import firebase_service.

(** X3.  A record created by [log_call_start] and then marked by
    [request_handoff] (both writes succeeding) reads back with the status
    [handoff], the flag, the reason and its time, and still has the room, the
    phone, the start time and the empty transcript it was created with. *)
Theorem handoff_after_start_reads_back :
  forall self s db room phone ctx now env id reason now',
    _use_firebase self = true -> _db s = Some db ->
    document_outcome env = inr id -> set_fails env = None ->
    let r1 := log_call_start self room phone ctx now env s in
    let r2 := request_handoff self id reason now' None (snd r1) in
    fst r1 = Ok id /\ fst r2 = Ok tt
    /\ exists db2 record,
         _db (snd r2) = Some db2
         /\ calls db2 !! id = Some record
         /\ record !! "status" = Some (PyStr "handoff")
         /\ record !! "handoff_requested" = Some (PyBool true)
         /\ record !! "handoff_reason" = Some (PyStr reason)
         /\ record !! "handoff_requested_at" = Some (PyStr now')
         /\ record !! "room_name" = Some (PyStr room)
         /\ record !! "phone" = Some (PyStr phone)
         /\ record !! "started_at" = Some (PyStr now)
         /\ record !! "transcript" = Some (PyList []).
Proof.
  intros self s db room phone ctx now env id reason now' Hu Hdb Hd Hs r1 r2.
  subst r2 r1. unfold request_handoff.
  rewrite update_call_status_cases, log_call_start_cases. cbv zeta.
  rewrite Hu, Hdb, Hd, Hs. simpl. rewrite lookup_insert_eq.
  split; [done|]. split; [done|].
  eexists _, _. split; [reflexivity|]. simpl. rewrite lookup_insert_eq.
  split; [reflexivity|]. repeat split; reflexivity.
Qed.

Lemma handoff_after_start_reads_back_witness :
  let self := {| _use_firebase := true |} in
  let s := {| _db := Some {| orders := []; calls := ∅ |}; log := [] |} in
  let env := {| document_outcome := inr "Jx3kQ"; set_fails := None |} in
  let r1 := log_call_start self "room-1" "+380501234567" mock_order "t0" env s in
  fst (request_handoff self "Jx3kQ" "customer requested manager" "t1" None (snd r1))
  = Ok tt.
Proof.
  intros self s env r1.
  by destruct (handoff_after_start_reads_back self s {| orders := []; calls := ∅ |}
                 "room-1" "+380501234567" mock_order "t0" env "Jx3kQ"
                 "customer requested manager" "t1" eq_refl eq_refl eq_refl eq_refl)
    as (_ & H & _).
Defined.

(** X4.  When the write of [log_call_start] raises, the call goes on under
    the mock identifier; as long as no record has that identifier, no later
    [update_call_status] of the call is stored: the store stays as it
    was. *)
Theorem failed_create_is_never_stored :
  forall self s db room phone ctx now env e status extra fails,
    _use_firebase self = true -> _db s = Some db ->
    set_fails env = Some e ->
    calls db !! ("mock-call-" +:+ room) = None ->
    let r1 := log_call_start self room phone ctx now env s in
    let r2 := update_call_status self ("mock-call-" +:+ room) status extra fails (snd r1) in
    fst r1 = Ok ("mock-call-" +:+ room)
    /\ fst r2 = Ok tt
    /\ _db (snd r2) = Some db.
Proof.
  intros self s db room phone ctx now env e status extra fails Hu Hdb Hs Hnone r1 r2.
  subst r2 r1. rewrite update_call_status_cases, log_call_start_cases. cbv zeta.
  rewrite Hu, Hdb, Hs. simpl in *.
  destruct (document_outcome env) as [e'|id]; simpl; rewrite Hnone;
    (split; [done|]); destruct fails; simpl; by split.
Qed.

Lemma failed_create_is_never_stored_witness :
  let self := {| _use_firebase := true |} in
  let s := {| _db := Some {| orders := []; calls := ∅ |}; log := [] |} in
  let env := {| document_outcome := inr "Jx3kQ";
                set_fails := Some (PyException "deadline exceeded") |} in
  let r1 := log_call_start self "room-1" "+380501234567" mock_order "t0" env s in
  _db (snd (update_call_status self "mock-call-room-1" "completed" ∅ None (snd r1)))
  = Some {| orders := []; calls := ∅ |}.
Proof.
  intros self s env r1.
  by destruct (failed_create_is_never_stored self s {| orders := []; calls := ∅ |}
                 "room-1" "+380501234567" mock_order "t0" env
                 (PyException "deadline exceeded") "completed" ∅ None
                 eq_refl eq_refl eq_refl eq_refl)
    as (_ & _ & H).
Defined.

Variable value_eq : pyval -> pyval -> bool.

(** [append_transcript], outcome by outcome. *)
Lemma append_transcript_cases self id role text now fails s :
  let entry := transcript_entry role text now in
  let mock e_log :=
    (Ok tt,
     {| _db := _db s;
        log := log s ++ e_log
               ++ [LogText INFO ("[MOCK] Transcript for " +:+ id +:+ ": ["
                                 +:+ role +:+ "] " +:+ text)] |}) in
  let failed e := [LogText ERROR ("Error appending transcript: " +:+ str_exn e)] in
  append_transcript value_eq self id role text now fails s =
    match _use_firebase self, _db s with
    | true, Some db =>
        match fails, calls db !! id with
        | Some e, _ => mock (failed e)
        | None, Some old =>
            (Ok tt,
             {| _db := Some {| orders := orders db;
                               calls := <[id := <["transcript" :=
                                            array_union value_eq entry (old !! "transcript")]> old]>
                                          (calls db) |};
                log := log s |})
        | None, None => mock (failed (PyException ("404 No document to update: " +:+ id)))
        end
    | _, _ => mock []
    end.
Proof.
  unfold append_transcript, configured, doc_array_union, bind, get, try_except,
    outcome, ret, raise, logger, modify, set_db.
  destruct s as [[db|] lg], (_use_firebase self), fails as [e|]; simpl;
    rewrite <- ?app_assoc; try reflexivity.
  destruct (calls db !! id) as [old|]; simpl; rewrite <- ?app_assoc; reflexivity.
Qed.

(** X5.  A successful [append_transcript] keeps the entries that were there,
    in their order, adds the new entry at the end unless an equal one is
    there already, and leaves the other fields of the record alone; appending
    the same entry (same role, text and time) again changes nothing, nor does
    it raise. *)
Theorem append_transcript_union :
  forall self id role text now s db old l,
    _use_firebase self = true -> _db s = Some db ->
    calls db !! id = Some old -> old !! "transcript" = Some (PyList l) ->
    value_eq (transcript_entry role text now) (transcript_entry role text now) = true ->
    let entry := transcript_entry role text now in
    let r1 := append_transcript value_eq self id role text now None s in
    let r2 := append_transcript value_eq self id role text now None (snd r1) in
    exists db1 record l1,
      fst r1 = Ok tt
      /\ _db (snd r1) = Some db1
      /\ calls db1 !! id = Some record
      /\ record !! "transcript" = Some (PyList l1)
      /\ (l1 = l \/ l1 = (l ++ [entry])%list)
      /\ existsb (value_eq entry) l1 = true
      /\ (forall k, k <> "transcript" -> record !! k = old !! k)
      /\ r2 = (Ok tt, snd r1).
Proof.
  intros self id role text now s db old l Hu Hdb Hold Hl Hrefl entry r1 r2.
  subst r2 r1. rewrite (append_transcript_cases self id role text now None s).
  cbv zeta. rewrite Hu, Hdb, Hold, Hl. fold entry. simpl.
  set (l1 := if existsb (value_eq entry) l then l else (l ++ [entry])%list).
  assert (Hu1 : (if existsb (value_eq entry) l then PyList l else PyList (l ++ [entry]))
                = PyList l1) by (subst l1; by destruct (existsb _ l)).
  assert (He : existsb (value_eq entry) l1 = true).
  { subst l1. destruct (existsb (value_eq entry) l) eqn:Hex; [done|].
    rewrite existsb_app. simpl. fold entry in Hrefl. rewrite Hrefl.
    by rewrite orb_true_r. }
  rewrite Hu1.
  exists {| orders := orders db;
            calls := <[id := <["transcript" := PyList l1]> old]> (calls db) |},
         (<["transcript" := PyList l1]> old), l1.
  split; [done|]. split; [done|]. simpl.
  split; [by rewrite lookup_insert_eq|]. split; [by rewrite lookup_insert_eq|].
  split; [subst l1; destruct (existsb _ l); auto|].
  split; [exact He|]. split; [intros k Hk; by rewrite lookup_insert_ne|].
  rewrite (append_transcript_cases self id role text now None). cbv zeta.
  rewrite Hu. simpl. rewrite lookup_insert_eq, lookup_insert_eq. simpl.
  fold entry. rewrite He. rewrite !insert_insert_eq. reflexivity.
Qed.

End RecordLifecycle.

Lemma append_transcript_union_witness :
  let self := {| firebase_service._use_firebase := true |} in
  let record := firebase_service.call_data "room-1" "+380501234567"
                  firebase_service.mock_order "t0" in
  let s := {| firebase_service._db :=
                Some {| firebase_service.orders := [];
                        firebase_service.calls := <["Jx3kQ" := record]> ∅ |};
              firebase_service.log := [] |} in
  let r1 := firebase_service.append_transcript pyval_eqb self "Jx3kQ" "user" "hello" "t1"
              None s in
  firebase_service.append_transcript pyval_eqb self "Jx3kQ" "user" "hello" "t1" None (snd r1)
  = (Ok tt, snd r1).
Proof.
  intros self record s r1.
  by destruct (append_transcript_union pyval_eqb self "Jx3kQ" "user" "hello" "t1" s
                 {| firebase_service.orders := [];
                    firebase_service.calls := <["Jx3kQ" := record]> ∅ |}
                 record [] eq_refl eq_refl eq_refl eq_refl eq_refl)
    as (db1 & rec1 & l1 & _ & _ & _ & _ & _ & _ & _ & H).
Defined.

(** ** The transcript handed to the dashboard *)

Section Transcript.
Import agent.



Lemma collect_items good acc :
  collect (map Item good) acc
  = ((acc ++ map transcript_entry (List.filter spoken good))%list, None).
Proof.
  revert acc. induction good as [|i good IH]; intros acc; simpl.
  - by rewrite app_nil_r.
  - unfold spoken at 1.
    destruct (String.eqb (item_type i) "message"
              && str_truthy (default "" (text_content i))); simpl.
    + rewrite IH. by rewrite <- app_assoc.
    + apply IH.
Qed.

Lemma collect_broken good e rest acc :
  collect (map Item good ++ Broken e :: rest) acc
  = ((acc ++ map transcript_entry (List.filter spoken good))%list, Some e).
Proof.
  revert acc. induction good as [|i good IH]; intros acc; simpl.
  - by rewrite app_nil_r.
  - unfold spoken at 1.
    destruct (String.eqb (item_type i) "message"
              && str_truthy (default "" (text_content i))); simpl.
    + rewrite IH. by rewrite <- app_assoc.
    + apply IH.
Qed.




(** X7.  The transcript is made of the messages that have a text, in their
    order; when reading an item raises, the entries of the items before it
    are kept, the items after it are dropped, and a warning is logged. *)
Theorem extract_transcript_keeps_what_came_first :
  forall good w,
    extract_transcript (HistoryItems (map Item good)) w
    = (Ok (map transcript_entry (List.filter spoken good)), w)
    /\ forall e rest,
         extract_transcript (HistoryItems (map Item good ++ Broken e :: rest)) w
         = (Ok (map transcript_entry (List.filter spoken good)),
            set_trace (trace w ++ [Log WARNING ("Could not extract transcript: "
                                                +:+ str_exn e)]) w).
Proof.
  intros good w. unfold extract_transcript. split.
  - by rewrite collect_items.
  - intros e rest. by rewrite collect_broken.
Qed.

End Transcript.

(** ** Invariants of a call that look beyond the agent and the session *)

Section CallInvariants.
Import agent.

Lemma triple_suspend_deaf Q P :
  deaf P -> callbacks_keep Q P -> triple Q P suspend P.
Proof.
  intros HP Hc w Hw. unfold suspend, modify. simpl.
  destruct (inbox w) as [|arrived later]; [split; [done | apply grows_refl]|].
  destruct (foldl_callbacks_keep Q P arrived Hc (set_inbox later w)) as [H1 H2];
    [by apply HP|].
  split; [exact H1|]. eapply grows_trans; [|exact H2]. by apply grows_same_trace.
Qed.

(** What the callbacks keep, what survives an emitted effect and the
    assignment of the flag, is kept by every event of a call. *)
Lemma step_keeps_all (P : World -> Prop) ev w :
  appendable P -> deaf P -> callbacks_keep (fun _ => True) P ->
  (forall w, P w -> P (snd (set_handoff_pending true w))) ->
  P w -> P (step ev w).
Proof.
  intros HA HD HC HS Hw.
  assert (Hsus : triple (fun _ => True) P suspend P) by by apply triple_suspend_deaf.
  destruct ev as [platform link response arrivals|reason env arrivals|e]; simpl.
  - apply HD. apply (triple_send_link (fun _ => True) (fun _ _ => I) P); [done | done|].
    by apply HD.
  - apply HD.
    destruct (triple_transfer_to_human (fun _ => True) (fun _ _ => I) P reason env)
      with (w := set_inbox arrivals w) as [[H _] _]; [done | done | | by apply HD | done].
    apply triple_suspend_deaf.
    + intros w' i [H1 H2]. split; [by apply HD | done].
    + apply callbacks_keep_and; [done|].
      eapply callbacks_keep_weaken; [|apply callbacks_keep_pending]. done.
  - by apply HC.
Qed.

Lemma run_keeps_all (P : World -> Prop) evs w :
  appendable P -> deaf P -> callbacks_keep (fun _ => True) P ->
  (forall w, P w -> P (snd (set_handoff_pending true w))) ->
  P w -> P (run evs w).
Proof.
  intros HA HD HC HS. revert w. apply run_keeps.
  intros ev w. by apply step_keeps_all.
Qed.

Lemma callbacks_keep_muted_is_recorded :
  callbacks_keep (fun _ => True) muted_is_recorded.
Proof.
  intros e w Hw. split; [|by apply callbacks_keep_true].
  destruct e as [identity i o|]; simpl.
  - destruct (String.prefix "human_operator" identity) eqn:Hpre;
      [|by rewrite on_participant_connected_other].
    destruct (_handoff_pending (self w)) eqn:Hp.
    + rewrite on_participant_connected_handoff by done. simpl.
      intros _. unfold human_handling_queued, joined.
      destruct i, o; simpl; apply elem_of_app; right; by apply list_elem_of_singleton.
    + rewrite on_participant_connected_ignored by done. exact Hw.
  - intros Hoff. unfold human_handling_queued. simpl.
    apply elem_of_app. left. by apply Hw.
Qed.

(** X8.  In every state a call can reach, once the AI has been muted in
    some direction the update of the call status to [human_handling] has
    been handed to [asyncio.create_task] and is kept in [cleanup_tasks]. *)
Theorem muted_call_is_recorded :
  forall order_context call_id firebase room getenv evs,
    muted_is_recorded
      (run evs (started (init order_context call_id firebase room) getenv)).
Proof.
  intros oc cid fb rm env evs.
  apply run_keeps_all.
  - intros w e H. exact H.
  - intros w i H. exact H.
  - apply callbacks_keep_muted_is_recorded.
  - intros w H. exact H.
  - intros [H|H]; discriminate.
Qed.

End CallInvariants.

(** ** What [send_link] sends, and to whom *)

Section SendLinkTrace.
Import agent.

Lemma callbacks_emit_logs_and_tasks :
  callbacks_keep (fun e => from_callback e = true) (fun _ => True).
Proof.
  intros e w _. split; [done|].
  destruct e as [identity i o|]; simpl.
  - destruct (String.prefix "human_operator" identity) eqn:Hpre;
      [|rewrite on_participant_connected_other by done; apply grows_refl].
    destruct (_handoff_pending (self w)) eqn:Hp.
    + rewrite on_participant_connected_handoff by done. simpl.
      unfold joined. destruct i, o; simpl; eexists; (split; [reflexivity|]);
        repeat constructor.
    + rewrite on_participant_connected_ignored by done. simpl.
      eexists. split; [reflexivity|]. repeat constructor.
  - eexists [_]. split; [reflexivity|]. repeat constructor.
Qed.

Lemma suspend_trace w :
  grows (fun e => from_callback e = true) w (snd (suspend w)).
Proof.
  assert (Hd : deaf (fun _ => True)) by done.
  by destruct (triple_suspend_deaf (fun e => from_callback e = true) (fun _ => True)
                 Hd callbacks_emit_logs_and_tasks w I).
Qed.

Lemma suspend_keeps_fields w :
  self (snd (suspend w)) = self w
  /\ TELEGRAM_WEBHOOK_URL (snd (suspend w)) = TELEGRAM_WEBHOOK_URL w.
Proof.
  assert (Hc : callbacks_keep (fun _ => True)
                 (fun w' => self w' = self w
                            /\ TELEGRAM_WEBHOOK_URL w' = TELEGRAM_WEBHOOK_URL w)).
  { intros e w' [H1 H2]. split; [|by apply callbacks_keep_true].
    destruct (callback_cases e w') as [->|[(t & new & -> & _)|(id & i & o & _ & ->)]];
      [done | done|]. unfold joined. by destruct i, o. }
  assert (Hd : deaf (fun w' => self w' = self w
                               /\ TELEGRAM_WEBHOOK_URL w' = TELEGRAM_WEBHOOK_URL w))
    by (intros w0 i H; exact H).
  by destruct (triple_suspend_deaf _ _ Hd Hc w).
Qed.

(** The trace of [send_link]. *)
Lemma send_link_trace :
  forall platform link response w,
    exists during lvl msg,
      trace (snd (send_link platform link response w))
      = (trace w
         ++ [Log INFO ("Sending link via " +:+ platform +:+ ": " +:+ link);
             HttpPost (TELEGRAM_WEBHOOK_URL w) (send_link_json (self w) platform link) 10]
         ++ during ++ [Log lvl msg])%list
      /\ Forall (fun e => from_callback e = true) during.
Proof.
  intros platform link response w.
  unfold send_link, logger, emit. rewrite bind_modify, bind_get.
  set (w1 := set_trace (trace w ++ [Log INFO _]) w).
  unfold try_except, client_post, emit. unfold bind at 1. rewrite bind_modify.
  set (w2 := set_trace (trace w1 ++ [HttpPost _ _ _]) w1).
  unfold bind at 1.
  destruct (suspend_trace w2) as (during & Hd & HF).
  change (suspend w2) with (Ok tt, snd (suspend w2)). cbv iota beta.
  set (w3 := snd (suspend w2)) in *.
  assert (Ht : trace w3
               = (trace w
                  ++ [Log INFO ("Sending link via " +:+ platform +:+ ": " +:+ link);
                      HttpPost (TELEGRAM_WEBHOOK_URL w)
                        (send_link_json (self w) platform link) 10]
                  ++ during)%list).
  { rewrite Hd. subst w2 w1. simpl. by rewrite <- !app_assoc. }
  destruct response as [e|status_code]; simpl.
  - destruct (isinstance_HTTPError e); simpl;
      eexists during, _, _; (split; [|exact HF]); rewrite Ht;
      by rewrite <- !app_assoc.
  - unfold raise_for_status.
    destruct ((200 <=? status_code)%Z && (status_code <=? 299)%Z); simpl;
      eexists during, _, _; (split; [|exact HF]); rewrite Ht;
      by rewrite <- !app_assoc.
Qed.

(** X9.  Whatever the response and whatever the room emits meanwhile,
    [send_link] performs exactly one request: after its first log line it
    posts the five fields to [TELEGRAM_WEBHOOK_URL] with a timeout of 10
    seconds, with the phone [unknown] and empty names when the order context
    lacks them; everything emitted after that comes from callbacks (log lines
    and queued tasks), up to one final log line of [send_link] itself.  It
    never retries. *)
Theorem send_link_posts_once :
  forall platform link response w,
    exists during lvl msg,
      trace (snd (send_link platform link response w))
      = (trace w
         ++ [Log INFO ("Sending link via " +:+ platform +:+ ": " +:+ link);
             HttpPost (TELEGRAM_WEBHOOK_URL w) (send_link_json (self w) platform link) 10]
         ++ during ++ [Log lvl msg])%list
      /\ Forall (fun e => from_callback e = true) during.
Proof. exact send_link_trace. Qed.

End SendLinkTrace.

(** ** The entry point *)

Section EntryPoint.
Import agent.





Variable py_str : pyval -> string.


End EntryPoint.

(** ** The data packet, for reasons that need no escaping *)

Section PlainPayload.
Import agent.

#[local] Arguments String.append !s1 s2 / : simpl nomatch.

Lemma string_body_plain s rest :
  plain s -> json.string_body (s +:+ String json.quote rest) = Some (s, rest).
Proof.
  unfold plain. induction s as [|c s IH]; simpl; intros Hs.
  - reflexivity.
  - apply Forall_cons in Hs as [(Hq & Hb & Hc) Hs].
    destruct (Ascii.eqb_spec c json.quote) as [->|_]; [done|].
    destruct (N.ltb_spec (N_of_ascii c) 32) as [Hlt|_]; [lia|].
    destruct (Ascii.eqb_spec c json.backslash) as [->|_]; [done|].
    by rewrite IH.
Qed.

(** X11.  When neither the call id nor the reason contains a double quote,
    a backslash or a control character, the data packet of
    [transfer_to_human] is a JSON text that decodes to the object with the
    members [type], [call_id] and [reason], with those values. *)
Theorem handoff_payload_round_trip :
  forall call_id reason,
    plain call_id -> plain reason ->
    json.loads (handoff_payload (Some call_id) reason)
    = Some [("type", "handoff"); ("call_id", call_id); ("reason", reason)].
Proof.
  intros call_id reason Hc Hr.
  unfold handoff_payload, str_call_id, dq, json.loads. simpl.
  change (String "034" ?x) with (String json.quote x).
  rewrite (string_body_plain call_id) by done. simpl.
  change (String "034" ?x) with (String json.quote x).
  rewrite (string_body_plain reason) by done. simpl.
  reflexivity.
Qed.

Lemma handoff_payload_round_trip_witness :
  json.loads (handoff_payload (Some "mock-call-room-1") "customer requested manager")
  = Some [("type", "handoff"); ("call_id", "mock-call-room-1");
          ("reason", "customer requested manager")].
Proof.
  apply handoff_payload_round_trip; unfold plain; simpl;
    repeat constructor; try discriminate; vm_compute; discriminate.
Defined.

End PlainPayload.

(** ** The webhook service *)

Section Webhook.
Import telegram_webhook.

Lemma connects_app t1 t2 : connects (t1 ++ t2) = connects t1 + connects t2.
Proof. unfold connects. by rewrite List.filter_app, length_app. Qed.

(** [get_telethon_client], outcome by outcome. *)
Lemma get_telethon_client_cases cfg env s :
  get_telethon_client cfg env s =
    match _telethon_client s with
    | Some c => (Ok (Some c), s)
    | None =>
        if negb (configured_mtproto cfg) then
          (Ok None,
           {| _telethon_client := None;
              trace := trace s
                ++ [Log WARNING
                      ("Telethon credentials not configured. "
                       +:+ "Set TELEGRAM_API_ID, TELEGRAM_API_HASH, and TELEGRAM_SESSION_STRING")] |})
        else
          match build_outcome env, connect_fails env with
          | inl e, _ =>
              (Ok None,
               {| _telethon_client := None;
                  trace := trace s
                    ++ [Log ERROR ("Failed to initialize Telethon client: " +:+ str_exn e)] |})
          | inr id, Some e =>
              (Ok None,
               {| _telethon_client := Some (built cfg id);
                  trace := trace s
                    ++ [Connect (built cfg id);
                        Log ERROR ("Failed to initialize Telethon client: " +:+ str_exn e)] |})
          | inr id, None =>
              (Ok (Some (built cfg id)),
               {| _telethon_client := Some (built cfg id);
                  trace := trace s
                    ++ [Connect (built cfg id);
                        Log INFO "Telethon client connected successfully"] |})
          end
    end.
Proof.
  unfold get_telethon_client, configured_mtproto, built, logger, emit, set_client,
    bind, get, modify, try_except, outcome, ret, raise.
  destruct s as [[c|] t]; simpl; [reflexivity|].
  destruct (negb _); simpl; [reflexivity|].
  destruct (build_outcome env) as [e|id]; simpl; [reflexivity|].
  destruct (connect_fails env) as [e|]; simpl; rewrite <- ?app_assoc; reflexivity.
Qed.

(** [_send_telegram_mtproto], from the outcome of [get_telethon_client]. *)
Lemma _send_telegram_mtproto_cases cfg env phone message s :
  _send_telegram_mtproto cfg env phone message s =
    let s1 := snd (get_telethon_client cfg (client env) s) in
    match fst (get_telethon_client cfg (client env) s) with
    | Ok None =>
        (Ok true,
         {| _telethon_client := _telethon_client s1;
            trace := trace s1
              ++ [Log INFO ("[MOCK TELEGRAM] To " +:+ phone +:+ ": " +:+ message)] |})
    | Ok (Some _) =>
        (Ok (delivered env),
         {| _telethon_client := _telethon_client s1;
            trace := trace s1 ++ send_effects env phone message |})
    | Raise e => (Raise e, s1)
    end.
Proof.
  unfold _send_telegram_mtproto. unfold bind at 1.
  destruct (get_telethon_client cfg (client env) s) as [[[c|]|e] s1]; simpl;
    [|reflexivity|reflexivity].
  unfold send_effects, send_failure_log, delivered, logger, emit, bind, modify,
    try_except, outcome, ret, raise.
  destruct (get_entity_fails env) as [e|]; simpl.
  - destruct (contains "user" (lower (str_exn e)) && contains "not" (lower (str_exn e)));
      simpl; rewrite <- ?app_assoc; reflexivity.
  - destruct (send_message_fails env) as [e|]; simpl;
      [|rewrite <- ?app_assoc; reflexivity].
    destruct (contains "user" (lower (str_exn e)) && contains "not" (lower (str_exn e)));
      simpl; rewrite <- ?app_assoc; reflexivity.
Qed.

Lemma get_telethon_client_returns cfg env s :
  exists c, fst (get_telethon_client cfg env s) = Ok c.
Proof.
  rewrite get_telethon_client_cases.
  destruct (_telethon_client s); [by eexists|].
  destruct (negb _); [by eexists|].
  destruct (build_outcome env), (connect_fails env); by eexists.
Qed.

Lemma reaches_send_failure_log phone e :
  Forall (fun x => reaches_telegram x = false) (send_failure_log phone e).
Proof.
  unfold send_failure_log. constructor; [done|].
  destruct (_ && _); repeat constructor.
Qed.

Lemma normalize_phone_plus phone : String.prefix "+" (normalize_phone phone) = true.
Proof.
  unfold normalize_phone. destruct (String.prefix "+" phone) eqn:H; [exact H|].
  simpl. by destruct phone.
Qed.

(** X12.  [_send_telegram_mtproto] never raises.  Without a client (the
    credentials are missing, building the client fails, or the connection
    fails on this call) it answers [True] and nothing is sent to Telegram.
    With a client it answers [True] exactly when [get_entity] and
    [send_message] both returned; the number it resolves always starts with
    a plus sign (numbers that have one are left alone), and the message is
    sent to that number exactly when [get_entity] returned. *)
Theorem send_telegram_mtproto_outcome :
  forall cfg env phone message s,
    let r := _send_telegram_mtproto cfg env phone message s in
    let new := drop (length (trace s)) (trace (snd r)) in
    let to := normalize_phone phone in
    String.prefix "+" to = true
    /\ normalize_phone to = to
    /\ match fst (get_telethon_client cfg (client env) s) with
       | Ok None =>
           fst r = Ok true
           /\ Forall (fun e => reaches_telegram e = false) new
       | Ok (Some _) =>
           fst r = Ok (delivered env)
           /\ GetEntity to ∈ new
           /\ (SendMessage to message ∈ new <-> get_entity_fails env = None)
           /\ (forall number text, SendMessage number text ∈ new ->
                                   number = to /\ text = message)
       | Raise _ => False
       end.
Proof.
  intros cfg env phone message s r new to. subst r new to.
  split; [apply normalize_phone_plus|].
  split; [unfold normalize_phone at 1; by rewrite normalize_phone_plus|].
  rewrite _send_telegram_mtproto_cases. cbv zeta.
  pose proof (get_telethon_client_cases cfg (client env) s) as Hc.
  assert (Hg : exists added,
             trace (snd (get_telethon_client cfg (client env) s))
             = (trace s ++ added)%list
             /\ Forall (fun e => reaches_telegram e = false) added).
  { rewrite Hc. destruct (_telethon_client s).
    - exists []. split; [by rewrite app_nil_r | constructor].
    - destruct (negb _); [eexists; split; [reflexivity | repeat constructor]|].
      destruct (build_outcome (client env)), (connect_fails (client env));
        eexists; (split; [reflexivity | repeat constructor]). }
  destruct Hg as (added & Ht & Hadded).
  destruct (get_telethon_client cfg (client env) s) as [[[c|]|e] s1] eqn:Hget;
    simpl in *.
  - assert (Hnew : drop (length (trace s)) (trace s1 ++ send_effects env phone message)
                   = (added ++ send_effects env phone message)%list)
      by (rewrite Ht, <- app_assoc; apply drop_app_length).
    rewrite Hnew.
    assert (Hno : forall number text, SendMessage number text ∈ added -> False).
    { intros number text Hin. rewrite Forall_forall in Hadded.
      specialize (Hadded _ Hin). discriminate. }
    split; [done|]. unfold send_effects.
    pose proof (reaches_send_failure_log (normalize_phone phone)) as Hlog.
    destruct (get_entity_fails env) as [e|]; [|destruct (send_message_fails env) as [e|]].
    + split; [apply elem_of_app; right; by left|]. split.
      * split; [|discriminate]. intros [Hin|Hin]%elem_of_app; [by destruct (Hno _ _ Hin)|].
        apply elem_of_cons in Hin as [Hin|Hin]; [discriminate|].
        specialize (Hlog e). rewrite Forall_forall in Hlog.
        specialize (Hlog _ Hin). discriminate.
      * intros number text [Hin|Hin]%elem_of_app; [by destruct (Hno _ _ Hin)|].
        apply elem_of_cons in Hin as [Hin|Hin]; [discriminate|].
        specialize (Hlog e). rewrite Forall_forall in Hlog.
        specialize (Hlog _ Hin). discriminate.
    + split; [apply elem_of_app; right; by left|]. split.
      * split; [done|]. intros _. apply elem_of_app. right. right. by left.
      * intros number text [Hin|Hin]%elem_of_app; [by destruct (Hno _ _ Hin)|].
        apply elem_of_cons in Hin as [Hin|Hin]; [discriminate|].
        apply elem_of_cons in Hin as [Hin|Hin]; [by injection Hin as -> ->|].
        specialize (Hlog e). rewrite Forall_forall in Hlog.
        specialize (Hlog _ Hin). discriminate.
    + split; [apply elem_of_app; right; by left|]. split.
      * split; [done|]. intros _. apply elem_of_app. right. right. by left.
      * intros number text [Hin|Hin]%elem_of_app; [by destruct (Hno _ _ Hin)|].
        apply elem_of_cons in Hin as [Hin|Hin]; [discriminate|].
        apply elem_of_cons in Hin as [Hin|Hin]; [by injection Hin as -> ->|].
        apply list_elem_of_singleton in Hin. discriminate.
  - split; [done|].
    rewrite Ht, <- app_assoc, drop_app_length.
    apply Forall_app. split; [done | repeat constructor].
  - destruct (get_telethon_client_returns cfg (client env) s) as [c Hc'].
    rewrite Hget in Hc'. discriminate.
Qed.

End Webhook.

Section WebhookRequests.
Import telegram_webhook.

(** The endpoint [send_link], from the outcome of the send. *)
Lemma endpoint_cases cfg env request s :
  let s0 := {| _telethon_client := _telethon_client s;
               trace := trace s
                 ++ [Log INFO ("Received send_link request: " +:+ platform request
                               +:+ " -> " +:+ phone request)] |} in
  send_link cfg env request s =
    if String.eqb (platform request) "telegram" then
      let r := _send_telegram_mtproto cfg env (phone request) (build_message request) s0 in
      match fst r with
      | Ok true =>
          (Ok (SendLinkResponse true "Link sent successfully" (platform request)), snd r)
      | Ok false => (Ok (HTTPException 500 "Failed to send message"), snd r)
      | Raise e => (Raise e, snd r)
      end
    else if String.eqb (platform request) "viber" then
      (Ok (SendLinkResponse true "Link sent successfully" (platform request)),
       {| _telethon_client := _telethon_client s;
          trace := trace s0
            ++ [Log INFO ("[MOCK VIBER] To " +:+ phone request +:+ ": "
                          +:+ build_message request)] |})
    else
      (Ok (HTTPException 400 ("Unsupported platform: " +:+ platform request)), s0).
Proof.
  cbv zeta. unfold send_link, logger, emit. rewrite bind_modify.
  destruct (String.eqb (platform request) "telegram").
  - unfold bind.
    destruct (_send_telegram_mtproto cfg env (phone request) (build_message request) _)
      as [[[|]|e] s1]; reflexivity.
  - destruct (String.eqb (platform request) "viber"); reflexivity.
Qed.

Lemma connects_send_effects env phone message :
  connects (send_effects env phone message) = 0.
Proof.
  unfold send_effects, send_failure_log.
  destruct (get_entity_fails env) as [e|]; [|destruct (send_message_fails env) as [e|]];
    try reflexivity;
    destruct (contains "user" (lower (str_exn e)) && contains "not" (lower (str_exn e)));
    reflexivity.
Qed.

Lemma connected_once_first s c' added :
  connects (trace s) = 0 -> connects added <= 1 ->
  (c' = None -> connects added = 0) ->
  connected_once {| _telethon_client := c'; trace := trace s ++ added |}.
Proof.
  intros H0 H1 H2. split; simpl; rewrite connects_app, H0; [done|].
  intros Hn. by rewrite H2.
Qed.

Lemma connected_once_quiet s added :
  connected_once s -> connects added = 0 ->
  connected_once {| _telethon_client := _telethon_client s; trace := trace s ++ added |}.
Proof.
  intros [H1 H2] H0. split; simpl; rewrite connects_app, H0; [lia|].
  intros Hn. rewrite (H2 Hn). reflexivity.
Qed.

Lemma get_telethon_client_once cfg env s :
  connected_once s -> connected_once (snd (get_telethon_client cfg env s)).
Proof.
  intros Hs. rewrite get_telethon_client_cases.
  destruct (_telethon_client s) as [c|] eqn:Hc; [exact Hs|].
  destruct Hs as [H1 H2]. specialize (H2 Hc).
  destruct (negb _);
    [apply connected_once_first; [done | unfold connects; simpl; lia | reflexivity]|].
  destruct (build_outcome env), (connect_fails env); simpl;
    (apply connected_once_first;
     [done | unfold connects; simpl; lia | try reflexivity; discriminate]).
Qed.

Lemma serve_once cfg s r : connected_once s -> connected_once (serve cfg s r).
Proof.
  intros Hs. unfold serve. rewrite endpoint_cases. cbv zeta.
  set (s0 := {| _telethon_client := _telethon_client s; trace := _ |}).
  assert (H0 : connected_once s0) by (by apply connected_once_quiet).
  destruct (String.eqb (platform r.2) "telegram").
  - rewrite _send_telegram_mtproto_cases. cbv zeta.
    pose proof (get_telethon_client_once cfg (client r.1) s0 H0) as H1.
    destruct (get_telethon_client cfg (client r.1) s0) as [[[c|]|e] s1]; simpl in *.
    + destruct (delivered r.1); simpl; apply connected_once_quiet; try done;
        apply connects_send_effects.
    + by apply connected_once_quiet.
    + exact H1.
  - destruct (String.eqb (platform r.2) "viber"); [|exact H0].
    by apply (connected_once_quiet s0).
Qed.

(** X13.  Over any sequence of requests to the endpoint, whatever the
    outside world does, the service attempts to connect to Telegram at most
    once: the client is kept from the moment it is built, also when the
    connection fails, and it is never connected again. *)
Theorem connects_at_most_once :
  forall cfg requests,
    let s := foldl (serve cfg) imported requests in
    connects (trace s) <= 1
    /\ (_telethon_client s = None -> connects (trace s) = 0).
Proof.
  intros cfg requests.
  assert (H : forall s, connected_once s -> connected_once (foldl (serve cfg) s requests)).
  { induction requests as [|r requests IH]; intros s Hs; simpl; [done|].
    apply IH. by apply serve_once. }
  apply H. split; [unfold connects; simpl; lia | done].
Qed.

End WebhookRequests.

Section WebhookAnswers.
Import telegram_webhook.

Lemma get_telethon_client_kept cfg env s c :
  _telethon_client s = Some c ->
  get_telethon_client cfg env s = (Ok (Some c), s).
Proof. intros Hc. rewrite get_telethon_client_cases. by rewrite Hc. Qed.

(** X14.  When the connection fails on the first Telegram request, that
    request is answered as sent although nothing reaches Telegram, and the
    client that failed to connect is kept: the next Telegram request uses it
    without connecting again, and is answered as sent exactly when
    [get_entity] and [send_message] return. *)
Theorem failed_connection_is_kept :
  forall cfg env1 env2 request1 request2 id e s,
    _telethon_client s = None ->
    configured_mtproto cfg = true ->
    build_outcome (client env1) = inr id ->
    connect_fails (client env1) = Some e ->
    platform request1 = "telegram" -> platform request2 = "telegram" ->
    let r1 := send_link cfg env1 request1 s in
    let r2 := send_link cfg env2 request2 (snd r1) in
    fst r1 = Ok (sent_reply request1)
    /\ Forall (fun x => reaches_telegram x = false)
              (drop (length (trace s)) (trace (snd r1)))
    /\ _telethon_client (snd r1) = Some (built cfg id)
    /\ fst r2 = Ok (if delivered env2 then sent_reply request2 else failed_reply)
    /\ connects (drop (length (trace (snd r1))) (trace (snd r2))) = 0
    /\ _telethon_client (snd r2) = Some (built cfg id).
Proof.
  intros cfg env1 env2 request1 request2 id e s Hnone Hcfg Hb Hf Hp1 Hp2 r1 r2.
  assert (H1 : r1 = (Ok (sent_reply request1),
                     {| _telethon_client := Some (built cfg id);
                        trace := trace s
                          ++ [Log INFO ("Received send_link request: "
                                        +:+ platform request1 +:+ " -> "
                                        +:+ phone request1);
                              Connect (built cfg id);
                              Log ERROR ("Failed to initialize Telethon client: "
                                         +:+ str_exn e);
                              Log INFO ("[MOCK TELEGRAM] To " +:+ phone request1 +:+ ": "
                                        +:+ build_message request1)] |})).
  { subst r1. rewrite endpoint_cases. cbv zeta. rewrite Hp1. simpl.
    rewrite _send_telegram_mtproto_cases, get_telethon_client_cases. cbv zeta.
    simpl. rewrite Hnone, Hcfg, Hb, Hf. simpl.
    unfold sent_reply. rewrite Hp1. by rewrite <- !app_assoc. }
  subst r2. rewrite H1. simpl.
  split; [done|]. split; [rewrite drop_app_length; repeat constructor|].
  split; [done|].
  rewrite endpoint_cases. cbv zeta. rewrite Hp2. simpl.
  rewrite _send_telegram_mtproto_cases. cbv zeta.
  rewrite (get_telethon_client_kept cfg (client env2) _ (built cfg id)) by done.
  simpl. unfold sent_reply, failed_reply. rewrite Hp2.
  destruct (delivered env2); simpl;
    (split; [done|]); (split; [|done]);
    rewrite <- app_assoc, drop_app_length;
    change (connects ([Log INFO ("Received send_link request: " +:+ "telegram" +:+ " -> "
                                 +:+ phone request2)]
                      ++ send_effects env2 (phone request2) (build_message request2)) = 0);
    by rewrite connects_app, connects_send_effects.
Qed.

Lemma failed_connection_is_kept_witness :
  let cfg := {| TELEGRAM_API_ID := Some "12345";
                TELEGRAM_API_HASH := Some "0123456789abcdef";
                TELEGRAM_SESSION_STRING := Some "1BVtsOK4Bu" |} in
  let env1 := {| client := {| build_outcome := inr 12345%Z;
                              connect_fails := Some (PyException "network unreachable") |};
                 get_entity_fails := None;
                 send_message_fails := None |} in
  let env2 := {| client := {| build_outcome := inr 12345%Z; connect_fails := None |};
                 get_entity_fails := Some (PyException "Cannot send requests while disconnected");
                 send_message_fails := None |} in
  let request := {| platform := "telegram"; phone := "380501234567";
                    link := "https://rozetka.com.ua/p1"; customer_name := "Anna";
                    product_name := "Premium Protection Plan" |} in
  fst (send_link cfg env1 request imported) = Ok (sent_reply request)
  /\ fst (send_link cfg env2 request (snd (send_link cfg env1 request imported)))
     = Ok failed_reply.
Proof.
  intros cfg env1 env2 request.
  destruct (failed_connection_is_kept cfg env1 env2 request request 12345%Z
              (PyException "network unreachable") imported
              eq_refl eq_refl eq_refl eq_refl eq_refl eq_refl)
    as (H1 & _ & _ & H2 & _).
  split; [exact H1 | exact H2].
Defined.

(** X15.  A request the endpoint admits (platform [telegram] or [viber])
    is never answered with 400: the answer is the success response or the
    error 500.  A Viber request is always answered as sent and nothing
    reaches Telegram; the error 500 is given only for a Telegram request
    whose [get_entity] or [send_message] raised.  The tool [send_link] of
    the agent, given the status of the answer, tells the model that the link
    was sent exactly when the answer is the success response, and otherwise
    offers to give the link verbally. *)
Theorem webhook_answer_decides_tool_text :
  forall cfg env request s,
    validated request = true ->
    exists answer,
      fst (send_link cfg env request s) = Ok answer
      /\ (answer = sent_reply request \/ answer = failed_reply)
      /\ (platform request = "viber" ->
          answer = sent_reply request
          /\ Forall (fun x => reaches_telegram x = false)
                    (drop (length (trace s)) (trace (snd (send_link cfg env request s)))))
      /\ (answer = failed_reply ->
          platform request = "telegram" /\ delivered env = false)
      /\ forall link w,
           fst (agent.send_link (platform request) link (inr (status_code_of answer)) w)
           = Ok (match answer with
                 | SendLinkResponse _ _ _ =>
                     "Link successfully sent via " +:+ platform request
                     +:+ ". Ask if they received it."
                 | HTTPException _ _ =>
                     "Sorry, I couldn't send the link via " +:+ platform request
                     +:+ " right now. Please try again later or I can give you the link verbally."
                 end).
Proof.
  intros cfg env request s Hv.
  assert (Htool : forall answer link w,
             answer = sent_reply request \/ answer = failed_reply ->
             fst (agent.send_link (platform request) link (inr (status_code_of answer)) w)
             = Ok (match answer with
                   | SendLinkResponse _ _ _ =>
                       "Link successfully sent via " +:+ platform request
                       +:+ ". Ask if they received it."
                   | HTTPException _ _ =>
                       "Sorry, I couldn't send the link via " +:+ platform request
                       +:+ " right now. Please try again later or I can give you the link verbally."
                   end)).
  { intros answer link w [->| ->]; reflexivity. }
  rewrite endpoint_cases. cbv zeta.
  unfold validated in Hv.
  destruct (String.eqb_spec (platform request) "telegram") as [Ht|Ht].
  - rewrite _send_telegram_mtproto_cases. cbv zeta.
    destruct (get_telethon_client_returns cfg (client env)
                {| _telethon_client := _telethon_client s;
                   trace := trace s
                     ++ [Log INFO ("Received send_link request: " +:+ platform request
                                   +:+ " -> " +:+ phone request)] |}) as [c Hc].
    destruct (get_telethon_client cfg (client env) _) as [[[c'|]|e] s1];
      simpl in *; [| |discriminate].
    + destruct (delivered env) eqn:Hd; simpl.
      * exists (sent_reply request). split; [done|]. split; [by left|].
        split; [intros Hvb; rewrite Hvb in Ht; discriminate|].
        split; [discriminate | intros link w; apply Htool; by left].
      * exists failed_reply. split; [done|]. split; [by right|].
        split; [intros Hvb; rewrite Hvb in Ht; discriminate|].
        split; [done | intros link w; apply Htool; by right].
    + exists (sent_reply request). split; [done|]. split; [by left|].
      split; [intros Hvb; rewrite Hvb in Ht; discriminate|].
      split; [discriminate | intros link w; apply Htool; by left].
  - destruct (String.eqb_spec (platform request) "viber") as [Hvb|Hvb];
      [|discriminate]. simpl.
    exists (sent_reply request). split; [done|]. split; [by left|].
    split; [intros _; split; [done|]|].
    + rewrite <- app_assoc, drop_app_length. repeat constructor.
    + split; [discriminate | intros link w; apply Htool; by left].
Qed.

Lemma webhook_answer_decides_tool_text_witness :
  let cfg := {| TELEGRAM_API_ID := None; TELEGRAM_API_HASH := None;
                TELEGRAM_SESSION_STRING := None |} in
  let env := {| client := {| build_outcome := inr 0%Z; connect_fails := None |};
                get_entity_fails := None; send_message_fails := None |} in
  let request := {| platform := "viber"; phone := "+380501234567";
                    link := "https://rozetka.com.ua/p1"; customer_name := "Anna";
                    product_name := "" |} in
  exists answer, fst (send_link cfg env request imported) = Ok answer
                 /\ answer = sent_reply request.
Proof.
  intros cfg env request.
  destruct (webhook_answer_decides_tool_text cfg env request imported eq_refl)
    as (answer & H1 & _ & H2 & _).
  exists answer. split; [exact H1 | by apply H2].
Defined.

End WebhookAnswers.
